(** * LoveConnect backend: the matching logic of [src/models/User.js]

    A shallow embedding of the Mongoose [User] model's matching code:
    the instance methods [isGenderCompatibleWith], [distanceTo] and
    [getPublicProfile], the [age] virtual and the static
    [findCompatibleUsers], together with the parts of the JavaScript
    runtime (truthiness, [Array.prototype.includes], the [Date]
    algorithms of ECMA-262) and of the document store (filter, sort,
    limit) that these functions rely on.

    Conventions.
    - A JavaScript [Date] is its time value, an integer number of
      milliseconds since the epoch, in [Z].  Integer-valued Numbers (ages,
      radii, limits) are in [Z] as well.
    - Coordinates are IEEE-754 binary64 numbers, [PrimFloat.float]; what
      is proved of their arithmetic comes from the specification of the
      primitive operations in [Floats].
    - [null]/[undefined] is [None]. *)

From Stdlib Require Import ZArith Lia List PrimFloat.
From Stdlib Require Floats.
From stdpp Require Import base decidable option list sorting strings gmap.

Local Open Scope Z_scope.

(** ** JavaScript runtime *)

Module Js.

(** How a call completes: with a value, or by throwing an error of a
    given [name]. *)
Inductive Completion (A : Type) : Type :=
| Returns (v : A)
| Throws (errorName : string).
Arguments Returns {A} v.
Arguments Throws {A} errorName.

(** [x || d] on Numbers: [0] is falsy. *)
Definition or_default (x d : Z) : Z :=
  if x =? 0 then d else x.

(** Truthiness of a string-or-null value: [null] and [''] are falsy. *)
Definition truthy (s : option string) : bool :=
  match s with
  | None => false
  | Some s' => negb (String.eqb s' "")
  end.

(** [arr.includes(x)] on an array of strings. *)
Definition includes (arr : list string) (x : string) : bool :=
  existsb (String.eqb x) arr.

End Js.

(** ** The schema *)

Record GenderIdentity : Type := mkGenderIdentity {
  myGender : string;
  interestedIn : list string
}.

Record Location : Type := mkLocation {
  coordinates : option (list float)
}.

Record AgeRange : Type := mkAgeRange {
  min : Z;
  max : Z
}.

Record Preferences : Type := mkPreferences {
  searchRadius : Z;
  ageRange : AgeRange
}.

Record User : Type := mkUser {
  _id : N;
  dateOfBirth : option Z;
  genderIdentity : GenderIdentity;
  currentMood : string;
  location : Location;
  isActive : bool;
  isBanned : bool;
  lastSeen : Z;
  preferences : Preferences
}.

(** The [enum] validators of [genderIdentity]. *)
Definition myGender_enum : list string :=
  [ "homme"; "femme"; "homme_transgenre"; "femme_transgenre";
    "non_binaire"; "genre_fluide"; "autre"; "prefere_ne_pas_dire" ]%string.

Definition interestedIn_enum : list string :=
  [ "homme"; "femme"; "homme_transgenre"; "femme_transgenre";
    "non_binaire"; "genre_fluide"; "autre"; "tous" ]%string.

(** ** Instance methods *)

Definition isGenderCompatibleWith (this otherUser : User) : bool :=
  let myInterestedIn := interestedIn (genderIdentity this) in
  let otherInterestedIn := interestedIn (genderIdentity otherUser) in
  let iAmInterestedInThem :=
    Js.includes myInterestedIn (myGender (genderIdentity otherUser))
    || Js.includes myInterestedIn "tous" in
  let theyAreInterestedInMe :=
    Js.includes otherInterestedIn (myGender (genderIdentity this))
    || Js.includes otherInterestedIn "tous" in
  iAmInterestedInThem && theyAreInterestedInMe.


(** *** The [age] virtual

    [Math.floor((Date.now() - dob.getTime()) / (365.25*24*60*60*1000))],
    [null] without a date of birth.  The divisor is the integer
    31557600000 and time values are integers, so the quotient is at least
    1/31557600000 away from the next integer; for ages below 2^19 years
    this is more than half an ulp of the double quotient, whose floor is
    therefore that of the exact quotient, [Z.div]. *)
Definition msPerAgeYear : Z := 31557600000.

Definition age (now : Z) (this : User) : option Z :=
  match dateOfBirth this with
  | None => None
  | Some dob => Some ((now - dob) / msPerAgeYear)
  end.

(** *** [distanceTo]

    The arithmetic is that of binary64.  [Math.sin], [Math.cos],
    [Math.atan2] and [Math.round] have no counterpart among the
    primitive float operations and are parameters. *)
Section Distance.

Variables Math_sin Math_cos Math_round : float -> float.
Variable Math_atan2 : float -> float -> float.

Definition Math_PI : float := 0x1.921fb54442d18p+1%float.
Definition Math_sqrt : float -> float := PrimFloat.sqrt.

(** An element read past the end of the array is [undefined], which
    arithmetic turns into [NaN]. *)
Definition element (cs : list float) (i : nat) : float :=
  nth i cs PrimFloat.nan.

Definition haversine (cs1 cs2 : list float) : float :=
  let lon1 := element cs1 0 in
  let lat1 := element cs1 1 in
  let lon2 := element cs2 0 in
  let lat2 := element cs2 1 in
  (let R := 6371000 in
   let phi1 := lat1 * Math_PI / 180 in
   let phi2 := lat2 * Math_PI / 180 in
   let dphi := (lat2 - lat1) * Math_PI / 180 in
   let dlambda := (lon2 - lon1) * Math_PI / 180 in
   let a := Math_sin (dphi / 2) * Math_sin (dphi / 2) +
            Math_cos phi1 * Math_cos phi2 *
            Math_sin (dlambda / 2) * Math_sin (dlambda / 2) in
   let c := 2 * Math_atan2 (Math_sqrt a) (Math_sqrt (1 - a)) in
   Math_round (R * c))%float.

(** [None] is the [null] the method returns when either document has no
    [location.coordinates]. *)
Definition distanceTo (this otherUser : User) : option float :=
  match coordinates (location this), coordinates (location otherUser) with
  | Some cs1, Some cs2 => Some (haversine cs1 cs2)
  | _, _ => None
  end.

End Distance.

(** The schema default of [location]: [{ type: 'Point', coordinates: [0, 0] }]. *)
Definition default_location : Location :=
  mkLocation (Some [0%float; 0%float]).

(** *** [getPublicProfile]

    [toObject] is Mongoose's conversion of a document to a plain object,
    here a finite map from property names to values. *)
Section PublicProfile.

Context {Value : Type}.
Variable toObject : User -> gmap string Value.

Definition getPublicProfile (this : User) : gmap string Value :=
  let user := toObject this in
  let user := delete "password"%string user in
  let user := delete "email"%string user in
  let user := delete "refreshTokens"%string user in
  let user := delete "passwordResetToken"%string user in
  let user := delete "passwordResetExpires"%string user in
  let user := delete "emailVerificationToken"%string user in
  let user := delete "emailVerificationExpires"%string user in
  user.

End PublicProfile.

(** The properties [getPublicProfile] deletes. *)
Definition sensitive_fields : list string :=
  [ "password"; "email"; "refreshTokens"; "passwordResetToken";
    "passwordResetExpires"; "emailVerificationToken";
    "emailVerificationExpires" ]%string.

(** ** The [Date] algorithms of ECMA-262 (section "Time Values and Time
    Range"), on integer time values.  [TimeClip] is left out: the time
    values of the model stay within the representable range. *)

Module JsDate.

Definition msPerDay : Z := 86400000.

Definition Day (t : Z) : Z := t / msPerDay.
Definition TimeWithinDay (t : Z) : Z := t mod msPerDay.

Definition isLeapYear (y : Z) : bool :=
  if negb (y mod 4 =? 0) then false
  else if negb (y mod 100 =? 0) then true
  else if negb (y mod 400 =? 0) then false
  else true.

Definition DaysInYear (y : Z) : Z := if isLeapYear y then 366 else 365.

Definition DayFromYear (y : Z) : Z :=
  365 * (y - 1970) + (y - 1969) / 4 - (y - 1901) / 100 + (y - 1601) / 400.

Definition TimeFromYear (y : Z) : Z := msPerDay * DayFromYear y.

(** The largest [y] with [TimeFromYear y <= t]: an estimate from the mean
    length of a Gregorian year, corrected by at most one. *)
Definition YearFromTime (t : Z) : Z :=
  let d := Day t in
  let y0 := 1970 + (d * 400) / 146097 in
  if DayFromYear (y0 + 1) <=? d then y0 + 1
  else if d <? DayFromYear y0 then y0 - 1
  else y0.

Definition InLeapYear (t : Z) : Z :=
  if isLeapYear (YearFromTime t) then 1 else 0.

Definition DayWithinYear (t : Z) : Z := Day t - DayFromYear (YearFromTime t).

(** Number of days of the year that precede month [m] (0 to 11; 12 gives
    the length of the year), [leap] being 1 in a leap year and 0
    otherwise. *)
Definition daysBeforeMonth (leap m : Z) : Z :=
  match m with
  | 0 => 0
  | 1 => 31
  | 2 => 59 + leap
  | 3 => 90 + leap
  | 4 => 120 + leap
  | 5 => 151 + leap
  | 6 => 181 + leap
  | 7 => 212 + leap
  | 8 => 243 + leap
  | 9 => 273 + leap
  | 10 => 304 + leap
  | 11 => 334 + leap
  | _ => 365 + leap
  end.

Definition monthOfDay (leap d : Z) : Z :=
  if d <? 31 then 0
  else if d <? 59 + leap then 1
  else if d <? 90 + leap then 2
  else if d <? 120 + leap then 3
  else if d <? 151 + leap then 4
  else if d <? 181 + leap then 5
  else if d <? 212 + leap then 6
  else if d <? 243 + leap then 7
  else if d <? 273 + leap then 8
  else if d <? 304 + leap then 9
  else if d <? 334 + leap then 10
  else 11.

Definition MonthFromTime (t : Z) : Z :=
  monthOfDay (InLeapYear t) (DayWithinYear t).

Definition DateFromTime (t : Z) : Z :=
  DayWithinYear t - daysBeforeMonth (InLeapYear t) (MonthFromTime t) + 1.

(** [MakeDay(year, month, date)]: the day number of the first of the
    month, plus [date - 1]. *)
Definition MakeDay (year month date : Z) : Z :=
  let ym := year + month / 12 in
  let mn := month mod 12 in
  DayFromYear ym + daysBeforeMonth (if isLeapYear ym then 1 else 0) mn
  + date - 1.

Definition MakeDate (day time : Z) : Z := day * msPerDay + time.

(** The Date constructor reads a year from 0 to 99 as 1900 + year. *)
Definition MakeFullYear (y : Z) : Z :=
  if (0 <=? y) && (y <=? 99) then 1900 + y else y.

Section LocalTime.

(** [LocalTZA t isUTC]: the offset of local time, in milliseconds, which
    the implementation defines from the time zone of the host. *)
Variable LocalTZA : Z -> bool -> Z.

Definition LocalTime (t : Z) : Z := t + LocalTZA t true.
Definition UTC (t : Z) : Z := t - LocalTZA t false.

Definition getFullYear (t : Z) : Z := YearFromTime (LocalTime t).
Definition getMonth (t : Z) : Z := MonthFromTime (LocalTime t).
Definition getDate (t : Z) : Z := DateFromTime (LocalTime t).

(** [new Date(year, month, date)]: local midnight of that day. *)
Definition newDate (year month date : Z) : Z :=
  UTC (MakeDate (MakeDay (MakeFullYear year) month date) 0).

End LocalTime.

(** A host whose local time is UTC. *)
Definition utcHost : Z -> bool -> Z := fun _ _ => 0.

End JsDate.

(** ** The document store

    The collection is the list of its documents.  A query is the filter
    object that [findCompatibleUsers] builds, with the [limit] of the
    chain; the sort of the chain is always [{ lastSeen: -1 }].  The
    projection of the chain ([select]) removes only properties that the
    record [User] does not carry. *)

Record Query : Type := mkQuery {
  q_id_ne : N;
  q_isActive : bool;
  q_isBanned : bool;
  q_near_geometry : Location;
  q_near_maxDistance : Z;
  q_dateOfBirth_gte : Z;
  q_dateOfBirth_lte : Z;
  q_currentMood : option string;
  q_limit : Z
}.

Definition inDateRange (q : Query) (doc : User) : bool :=
  match dateOfBirth doc with
  | Some d => (q_dateOfBirth_gte q <=? d) && (d <=? q_dateOfBirth_lte q)
  | None => false
  end.

Definition hasMood (q : Query) (doc : User) : bool :=
  match q_currentMood q with
  | Some m => String.eqb (currentMood doc) m
  | None => true
  end.

(** [lastSeen] descending. *)
Definition lastSeenDesc (a b : User) : Prop := lastSeen b <= lastSeen a.

#[global] Instance lastSeenDesc_dec : RelDecision lastSeenDesc.
Proof. intros a b. unfold lastSeenDesc. apply _. Defined.

(** [limit(0)] sets no limit; a negative limit counts as its absolute
    value. *)
Definition applyLimit (n : Z) (docs : list User) : list User :=
  if n =? 0 then docs else take (Z.to_nat (Z.abs n)) docs.

Section Store.

(** The geospatial operator of the store: whether a stored location lies
    within [maxDistance] metres of the query's [$geometry].  What a store
    does with a [$geometry] that has no coordinates is its own affair;
    the properties below that depend on the point state it. *)
Variable geoNear : Location -> Z -> Location -> bool.

Definition matchesQuery (q : Query) (doc : User) : bool :=
  negb (N.eqb (_id doc) (q_id_ne q))
  && Bool.eqb (isActive doc) (q_isActive q)
  && Bool.eqb (isBanned doc) (q_isBanned q)
  && geoNear (q_near_geometry q) (q_near_maxDistance q) (location doc)
  && inDateRange q doc
  && hasMood q doc.

Definition find (store : list User) (q : Query) : list User :=
  applyLimit (q_limit q)
    (merge_sort lastSeenDesc (List.filter (matchesQuery q) store)).

End Store.

(** ** [findCompatibleUsers] *)

Record Options : Type := mkOptions {
  maxDistance : option Z;
  ageMin : option Z;
  ageMax : option Z;
  mood : option string;
  limit : option Z
}.

(** [findCompatibleUsers(user)]: the [options] argument left out. *)
Definition noOptions : Options := mkOptions None None None None None.

Section FindCompatibleUsers.

Variable LocalTZA : Z -> bool -> Z.
Variable geoNear : Location -> Z -> Location -> bool.

(** The values the destructuring of [options] binds. *)
Definition resolvedMaxDistance (user : User) (options : Options) : Z :=
  default (Js.or_default (searchRadius (preferences user)) 10000)
          (maxDistance options).

Definition resolvedAgeMin (user : User) (options : Options) : Z :=
  default (Js.or_default (min (ageRange (preferences user))) 18)
          (ageMin options).

Definition resolvedAgeMax (user : User) (options : Options) : Z :=
  default (Js.or_default (max (ageRange (preferences user))) 35)
          (ageMax options).

Definition resolvedLimit (options : Options) : Z :=
  default 50 (limit options).

Definition maxBirthDate (now : Z) (user : User) (options : Options) : Z :=
  JsDate.newDate LocalTZA
    (JsDate.getFullYear LocalTZA now - resolvedAgeMin user options)
    (JsDate.getMonth LocalTZA now) (JsDate.getDate LocalTZA now).

Definition minBirthDate (now : Z) (user : User) (options : Options) : Z :=
  JsDate.newDate LocalTZA
    (JsDate.getFullYear LocalTZA now - resolvedAgeMax user options)
    (JsDate.getMonth LocalTZA now) (JsDate.getDate LocalTZA now).

Definition compatibleUsersQuery (now : Z) (user : User) (options : Options)
  : Query :=
  {| q_id_ne := _id user;
     q_isActive := true;
     q_isBanned := false;
     q_near_geometry := location user;
     q_near_maxDistance := resolvedMaxDistance user options;
     q_dateOfBirth_gte := minBirthDate now user options;
     q_dateOfBirth_lte := maxBirthDate now user options;
     q_currentMood :=
       if Js.truthy (mood options) then mood options else None;
     q_limit := resolvedLimit options |}.

(** The function has no [throw] and no guard: every call completes
    normally, with the documents the store finds for the query.  The
    store here answers every query; [awaitFindCompatibleUsers] below is
    the call on a store that may reject one. *)
Definition findCompatibleUsers (store : list User) (now : Z)
    (user : User) (options : Options) : Js.Completion (list User) :=
  Js.Returns (find geoNear store (compatibleUsersQuery now user options)).

End FindCompatibleUsers.

(** ** Awaiting the query

    [findCompatibleUsers] returns the query it built, and the documents
    come when the caller awaits it.  The store may reject a query instead
    of answering it: a [$geometry] that is no point, a missing geospatial
    index, a lost connection.  [rejects] is that verdict of the store,
    with the name of the error it raises; nothing in the function takes
    part in it.  A requester without a [location] at all hands over no
    [$geometry], which is a location without coordinates here. *)

Section Await.

Variable LocalTZA : Z -> bool -> Z.
Variable geoNear : Location -> Z -> Location -> bool.
Variable rejects : Query -> option string.

(** [Query.prototype.exec]. *)
Definition exec (store : list User) (q : Query) : Js.Completion (list User) :=
  match rejects q with
  | Some e => Js.Throws e
  | None => Js.Returns (find geoNear store q)
  end.

(** [await User.findCompatibleUsers(user, options)]. *)
Definition awaitFindCompatibleUsers (store : list User) (now : Z)
    (user : User) (options : Options) : Js.Completion (list User) :=
  exec store (compatibleUsersQuery LocalTZA now user options).

End Await.

(** The candidates a call yields; none when it throws. *)
Definition candidates (r : Js.Completion (list User)) : list User :=
  match r with
  | Js.Returns docs => docs
  | Js.Throws _ => []
  end.

(** What it takes for a document to be found by the query of
    [findCompatibleUsers]. *)
Record Eligible (LocalTZA : Z -> bool -> Z)
    (geoNear : Location -> Z -> Location -> bool)
    (now : Z) (user : User) (options : Options) (c : User) : Prop :=
  mkEligible {
  eligible_id : _id c <> _id user;
  eligible_isActive : isActive c = true;
  eligible_isBanned : isBanned c = false;
  eligible_near :
    geoNear (location user) (resolvedMaxDistance user options) (location c)
    = true;
  eligible_dateOfBirth :
    exists dob, dateOfBirth c = Some dob
                /\ minBirthDate LocalTZA now user options <= dob
                   <= maxBirthDate LocalTZA now user options;
  eligible_mood :
    forall m, mood options = Some m -> m <> ""%string -> currentMood c = m
}.

(** ** MoodFreshness *)

Definition msPerHour : Z := 3600000.

(** Modelled from the spec: [isFresh] of section 4.3 (MoodFreshness).  The
    files under src/ only declare the setting
    [moodSystem.displaySettings.moodExpiryHours]; no function reads it.
    Following the spec, a mood entry is fresh iff
    [now - moodTimestamp <= expiryHours], the hours converted to the
    milliseconds of the timestamps. *)
Definition isFresh (now moodTimestamp expiryHours : Z) : bool :=
  now - moodTimestamp <=? expiryHours * msPerHour.

(** ** A fixture

    A host on UTC; the instant 2026-11-02T00:00:00Z; documents at the
    schema's default location.  The store operator of the fixture finds a
    document when it sits on the query point itself, for any radius that
    is not negative. *)

Module Fixture.

Fixpoint sameCoordinates (a b : list float) : bool :=
  match a, b with
  | [], [] => true
  | x :: a', y :: b' => PrimFloat.eqb x y && sameCoordinates a' b'
  | _, _ => false
  end.

Definition onQueryPoint (geometry : Location) (maxDistance : Z)
    (loc : Location) : bool :=
  (0 <=? maxDistance) &&
  match coordinates geometry, coordinates loc with
  | Some a, Some b => sameCoordinates a b
  | _, _ => false
  end.

Definition now : Z := 1793577600000.

Definition defaults : Preferences := mkPreferences 10000 (mkAgeRange 18 35).

Definition hommeSeekingFemme : GenderIdentity :=
  mkGenderIdentity "homme" ["femme"%string].

Definition femmeSeekingHomme : GenderIdentity :=
  mkGenderIdentity "femme" ["homme"%string].

Definition undeclared : GenderIdentity :=
  mkGenderIdentity "femme" [].

(** The requester, born 1996-06-01, who never set a location. *)
Definition requester : User :=
  mkUser 1 (Some 833587200000) hommeSeekingFemme "bonne_humeur"
         default_location true false 1793570000000 defaults.

(** Born 2000-01-01. *)
Definition rival : User :=
  mkUser 2 (Some 946684800000) hommeSeekingFemme "zen"
         default_location true false 1793560000000 defaults.

Definition partner : User :=
  mkUser 3 (Some 946684800000) femmeSeekingHomme "zen"
         default_location true false 1793550000000 defaults.

(** Born 2005-11-02: twenty-one years old to the day at [now]. *)
Definition comingOfAge : User :=
  mkUser 4 (Some 1130889600000) femmeSeekingHomme "festif"
         default_location true false 1793540000000 defaults.

Definition banned : User :=
  mkUser 5 (Some 946684800000) femmeSeekingHomme "zen"
         default_location true true 1793575000000 defaults.

Definition inactive : User :=
  mkUser 6 (Some 946684800000) femmeSeekingHomme "zen"
         default_location false false 1793576000000 defaults.

(** A document without coordinates. *)
Definition unlocated : User :=
  mkUser 7 (Some 946684800000) femmeSeekingHomme "zen"
         (mkLocation None) true false 1793530000000 defaults.

(** A document whose [interestedIn] is the empty array. *)
Definition silent : User :=
  mkUser 8 (Some 946684800000) undeclared "zen"
         default_location true false 1793520000000 defaults.

Definition store : list User :=
  [requester; rival; partner; comingOfAge; banned; inactive; unlocated;
   silent].

(** [{ ageMin: 21 }]. *)
Definition from21 : Options := mkOptions None (Some 21) None None None.

Definition search (user : User) (options : Options)
  : Js.Completion (list User) :=
  findCompatibleUsers JsDate.utcHost onQueryPoint store now user options.

(** Two stores.  The strict one rejects a [$geometry] without
    coordinates, with an error of its own; the lenient one answers every
    query. *)
Definition strict (q : Query) : option string :=
  match coordinates (q_near_geometry q) with
  | Some _ => None
  | None => Some "MongoServerError"%string
  end.

Definition lenient (q : Query) : option string := None.

Definition awaitSearch (rejects : Query -> option string) (user : User)
    (options : Options) : Js.Completion (list User) :=
  awaitFindCompatibleUsers JsDate.utcHost onQueryPoint rejects store now
    user options.

End Fixture.


(** ** The rest of the model: validator, photos, ghost mode *)

(** The [validate] function of [dateOfBirth]: the age, computed as by the
    [age] virtual, must lie between 18 and 100. *)
Definition dateOfBirth_validator (now date : Z) : bool :=
  let age := (now - date) / msPerAgeYear in
  (18 <=? age) && (age <=? 100).

Module Photos.

Record Photo : Type := mkPhoto {
  url : option string;
  cloudinaryId : option string;
  isMain : bool;
  uploadedAt : Z
}.

(** The assignment [photo.isMain = b]. *)
Definition setMain (b : bool) (photo : Photo) : Photo :=
  mkPhoto (url photo) (cloudinaryId photo) b (uploadedAt photo).

(** The [mainPhoto] virtual:
    [this.photos.find(photo => photo.isMain) || this.photos[0] || null]. *)
Definition mainPhoto (photos : list Photo) : option Photo :=
  match List.find isMain photos with
  | Some photo => Some photo
  | None => head photos
  end.

(** The second [pre('save')] hook, on the [photos] array it updates in
    place. *)
Definition validateMainPhoto (photos : list Photo) : list Photo :=
  match photos with
  | [] => []
  | first :: others =>
      let mainPhotos := List.filter isMain photos in
      if (length mainPhotos =? 0)%nat then setMain true first :: others
      else if (1 <? length mainPhotos)%nat then
        imap (fun index photo => setMain (index =? 0)%nat photo) photos
      else photos
  end.

(** [this.photos] may be missing: the hook then leaves it so. *)
Definition preSave (photos : option (list Photo)) : option (list Photo) :=
  validateMainPhoto <$> photos.

End Photos.

Module GhostMode.

Record GhostMode : Type := mkGhostMode {
  isActive : bool;
  expiresAt : option Z;
  activatedAt : option Z
}.

(** What [a && b && c] evaluates to here: [false] when the mode is off,
    [undefined] when it is on without an expiry, a boolean otherwise. *)
Inductive Result : Type :=
| Boolean (b : bool)
| Undefined.

Definition isInGhostMode (now : Z) (ghostMode : GhostMode) : Result :=
  if isActive ghostMode then
    match expiresAt ghostMode with
    | Some e => Boolean (now <? e)
    | None => Undefined
    end
  else Boolean false.

Definition truthy (r : Result) : bool :=
  match r with
  | Boolean b => b
  | Undefined => false
  end.

End GhostMode.

(** ** The projection of [findCompatibleUsers]

    [select('-password -refreshTokens -passwordResetToken
    -emailVerificationToken')] on the plain object of a document: the
    listed properties are left out. *)
Definition compatibleUsers_select : list string :=
  [ "password"; "refreshTokens"; "passwordResetToken";
    "emailVerificationToken" ]%string.

Definition select_exclude {Value : Type} (fields : list string)
    (doc : gmap string Value) : gmap string Value :=
  foldr delete doc fields.

(** ** [src/middleware/errorHandler.js] *)

Module ErrorHandler.

(** The properties of an error that the handler reads.  [errors] holds
    the entries of a validation error, by path: the message of an entry,
    or [None] for an entry that is [null] or [undefined]; [keyValue]
    holds the keys of the duplicated index entry.  A [code] that is not a
    number is never [11000] and is [None] here, like a missing one. *)
Record Error : Type := mkError {
  name : string;
  code : option Z;
  errors : option (list (string * option string));
  keyValue : option (list string);
  status : option Z;
  message : option string;
  stack : option string
}.

(** The values of the properties of the JSON objects the handler sends:
    a string, or an array of strings. *)
Inductive Json : Type :=
| JString (s : string)
| JArray (items : list string).

(** The body is a JSON object, the list of its properties.  A property
    whose value is [undefined] is not serialised and is left out. *)
Record Response : Type := mkResponse {
  statusCode : Z;
  body : list (string * Json)
}.

(** A property that is serialised only when its value is defined. *)
Definition optionalProperty (key : string) (value : option string)
  : list (string * Json) :=
  match value with
  | Some v => [(key, JString v)]
  | None => []
  end.

(** [`${field}`] of a string or [undefined]. *)
Definition templateOf (field : option string) : string :=
  default "undefined"%string field.

(** [x || d] on strings: [undefined] and [''] are falsy. *)
Definition string_or_default (x : option string) (d : string) : string :=
  if Js.truthy x then default d x else d.

(** [x || d] on numbers: [undefined] and [0] are falsy. *)
Definition number_or_default (x : option Z) (d : Z) : Z :=
  match x with
  | Some n => Js.or_default n d
  | None => d
  end.

(** An entry that carries a message. *)
Definition withMessage (entry : string * string) : string * option string :=
  (fst entry, Some (snd entry)).

(** [Object.values(errors).map(err => err.message)]: reading [message]
    off an entry that is [null] or [undefined] throws. *)
Definition messagesOf (errs : list (string * option string))
  : option (list string) :=
  mapM snd errs.

(** [NODE_ENV] is the value of [process.env.NODE_ENV].  [Object.values]
    and [Object.keys] throw a [TypeError] on [undefined]. *)
Definition errorHandler (NODE_ENV : option string) (error : Error)
  : Js.Completion Response :=
  if String.eqb (name error) "ValidationError" then
    match errors error with
    | None => Js.Throws "TypeError"
    | Some errs =>
        match messagesOf errs with
        | None => Js.Throws "TypeError"
        | Some details =>
            Js.Returns
              (mkResponse 400
                 [("error"%string, JString "Erreur de validation");
                  ("details"%string, JArray details)])
        end
    end
  else if bool_decide (code error = Some 11000) then
    match keyValue error with
    | None => Js.Throws "TypeError"
    | Some keys =>
        let field := head keys in
        Js.Returns
          (mkResponse 400
             (("error"%string, JString (templateOf field ++ " déjà utilisé"))
              :: optionalProperty "field" field))
    end
  else if String.eqb (name error) "JsonWebTokenError" then
    Js.Returns
      (mkResponse 401 [("error"%string, JString "Token invalide")])
  else if String.eqb (name error) "TokenExpiredError" then
    Js.Returns
      (mkResponse 401 [("error"%string, JString "Token expiré")])
  else
    Js.Returns
      (mkResponse (number_or_default (status error) 500)
         (("error"%string,
           JString (string_or_default (message error)
                      "Erreur serveur interne"))
          :: if bool_decide (NODE_ENV = Some "development"%string)
             then optionalProperty "stack" (stack error)
             else [])).

(** The value of a property of a JSON object. *)
Fixpoint property (key : string) (props : list (string * Json))
  : option Json :=
  match props with
  | [] => None
  | (k, v) :: rest => if String.eqb k key then Some v else property key rest
  end.

Definition bodyProperty (key : string) (r : Response) : option Json :=
  property key (body r).

End ErrorHandler.

(** ** [src/middleware/auth.js] and [src/routes/users.js] *)

Module Auth.

(** [s.replace(pattern, replacement)] with a string pattern: the first
    occurrence is replaced. *)
Fixpoint startsWith (pattern s : string) : option string :=
  match pattern, s with
  | EmptyString, _ => Some s
  | String a pattern', String b s' =>
      if Ascii.eqb a b then startsWith pattern' s' else None
  | String _ _, EmptyString => None
  end.

Fixpoint replace (pattern replacement s : string) : string :=
  match startsWith pattern s with
  | Some rest => (replacement ++ rest)%string
  | None =>
      match s with
      | EmptyString => EmptyString
      | String c s' => String c (replace pattern replacement s')
      end
  end.

(** [process.env.JWT_SECRET || 'fallback_secret']. *)
Definition secretOf (JWT_SECRET : option string) : string :=
  ErrorHandler.string_or_default JWT_SECRET "fallback_secret".

(** [User.findById(id)]: the document with that [_id], or [null]; [null]
    too for an [undefined] id. *)
Definition findById (store : list User) (id : option N) : option User :=
  match id with
  | Some i => List.find (fun doc => N.eqb (_id doc) i) store
  | None => None
  end.

(** How the middleware ends: it calls [next()] with the user it put in
    [req.user], or it answers with a status and an error message.  The
    token is missing ([!token]) when the header is, or when nothing is
    left of it. *)
Inductive Outcome : Type :=
| Next (reqUser : User)
| Respond (statusCode : Z) (error : string).

Section Middleware.

(** [jwt.verify(token, secret)]: the [userId] of the decoded payload, which
    may lack one, or an error. *)
Variable jwt_verify : string -> string -> Js.Completion (option N).

Definition authMiddleware (JWT_SECRET : option string) (store : list User)
    (authorization : option string) : Outcome :=
  match replace "Bearer " "" <$> authorization with
  | None => Respond 401 "Accès refusé. Token manquant."
  | Some token =>
      if String.eqb token "" then Respond 401 "Accès refusé. Token manquant."
      else
        match jwt_verify token (secretOf JWT_SECRET) with
        | Js.Throws _ => Respond 401 "Token invalide."
        | Js.Returns userId =>
            match findById store userId with
            | None => Respond 401 "Token invalide. Utilisateur non trouvé."
            | Some user => Next user
            end
        end
  end.

End Middleware.

(** What a route sends: [res.json(document)], with the status 200 that
    Express starts from and [null] for no document, or
    [res.status(statusCode).json({ error })]. *)
Inductive Reply : Type :=
| SendDocument (statusCode : Z) (document : option User)
| SendError (statusCode : Z) (error : string).

(** [await User.findById(id)] in a route.  [collection] is what the
    database gives when the route asks: its documents then, which need
    not be those the middleware saw, or the error of a lookup that fails,
    which the [await] throws. *)
Definition awaitFindById (collection : Js.Completion (list User))
    (id : option N) : Js.Completion (option User) :=
  match collection with
  | Js.Returns store => Js.Returns (findById store id)
  | Js.Throws e => Js.Throws e
  end.

(** [GET /me]: the document with the id of [req.user], [null] when there
    is none left, and the [catch] branch when the lookup fails. *)
Definition getMe (collection : Js.Completion (list User)) (reqUser : User)
  : Reply :=
  match awaitFindById collection (Some (_id reqUser)) with
  | Js.Returns user => SendDocument 200 user
  | Js.Throws _ => SendError 500 "Erreur lors de la récupération du profil"
  end.

End Auth.

(** ** Numbers and the host's [Math]

    [x == y] and [x >= y] on two numbers are the comparisons of IEEE 754:
    false whenever an operand is [NaN], and blind to the sign of zero. *)

Definition number_eq (x y : float) : bool := (x =? y)%float.
Definition number_ge (x y : float) : bool := (y <=? x)%float.

(** Two predicates on the specification of a binary64 number: being a
    zero or a finite number, and not being below zero, as [NaN] is not. *)
Definition SFfinite (x : SpecFloat.spec_float) : bool :=
  match x with
  | SpecFloat.S754_zero _ | SpecFloat.S754_finite _ _ _ => true
  | _ => false
  end.

Definition SFnot_negative (x : SpecFloat.spec_float) : Prop :=
  SpecFloat.SFltb x (SpecFloat.S754_zero false) = false.

(** A zero, or a finite number with an exponent of [b] at most. *)
Definition SFexponent_le (x : SpecFloat.spec_float) (b : Z) : Prop :=
  match x with
  | SpecFloat.S754_zero _ => True
  | SpecFloat.S754_finite _ _ e => e <= b
  | _ => False
  end.

(** [lat * Math.PI / 180]. *)
Definition radians (degrees : float) : float :=
  (degrees * Math_PI / 180)%float.

(** What the properties of [distanceTo] ask of the host.  ECMA-262 fixes
    the values at zero: [Math.sin(+0)] is [+0], [Math.atan2(y, x)] is [y]
    for a zero [y] and [x > 0], [Math.round(+0)] is [+0]; and it defines
    [Math.round] exactly, which never goes from a number that is not
    negative to a negative one.  It leaves [Math.sin], [Math.cos] and
    [Math.atan2] approximated by the host; the other laws ask of the
    approximations the oddness of the sine, the range of the cosine and
    the sign of the arc tangent, which is not negative for a [y] that is
    neither negative nor [-0]. *)
Record MathLaws (Math_sin Math_cos Math_round : float -> float)
    (Math_atan2 : float -> float -> float) : Prop := mkMathLaws {
  Math_sin_zero : Math_sin 0%float = 0%float;
  Math_sin_odd : forall x, Math_sin (- x)%float = (- Math_sin x)%float;
  Math_cos_range :
    forall x, is_finite x = true ->
      (-1 <=? Math_cos x)%float = true /\ (Math_cos x <=? 1)%float = true;
  Math_atan2_zero :
    forall y, (y =? 0)%float = true -> Math_atan2 y 1%float = y;
  Math_atan2_sign :
    forall y x, (y <? 0)%float = false -> y <> (-0)%float ->
      (Math_atan2 y x <? 0)%float = false;
  Math_round_zero : Math_round 0%float = 0%float;
  Math_round_sign :
    forall x, (x <? 0)%float = false -> (Math_round x <? 0)%float = false
}.

(** The host of the examples.  It has the values ECMA-262 fixes at the
    zeros, the infinities and [NaN], which are all that the examples ask
    of it; elsewhere it has the small-angle values, [sin x = x],
    [cos x = 1] and [atan2(y, x) = y], and a [round] that leaves its
    argument. *)
Module Host.

Definition Math_sin (x : float) : float :=
  if is_finite x then x else nan.

Definition Math_cos (x : float) : float :=
  if is_finite x then 1%float else nan.

Definition Math_atan2 (y x : float) : float :=
  if is_nan x then nan else y.

Definition Math_round (x : float) : float := x.

End Host.

(** ** More of the fixture *)

Module Fixture2.

Definition portrait : Photos.Photo :=
  Photos.mkPhoto (Some "https://img/1.jpg"%string) None false 1793000000000.

Definition beach : Photos.Photo :=
  Photos.mkPhoto (Some "https://img/2.jpg"%string) None true 1793100000000.

Definition party : Photos.Photo :=
  Photos.mkPhoto (Some "https://img/3.jpg"%string) None true 1793200000000.

(** [{ ageMin: 40, ageMax: 30 }]. *)
Definition inverted : Options := mkOptions None (Some 40) (Some 30) None None.

(** [{ mood: 'zen' }]. *)
Definition zen : Options := mkOptions None None None (Some "zen"%string) None.

(** [{ limit: 2 }]. *)
Definition two : Options := mkOptions None None None None (Some 2).

(** A verifier that accepts the token ['t3'] for the user 3 and the token
    ['t5'] for the user 5, under the fallback secret. *)
Definition verify (token secret : string) : Js.Completion (option N) :=
  if String.eqb secret "fallback_secret" then
    if String.eqb token "t3" then Js.Returns (Some 3%N)
    else if String.eqb token "t5" then Js.Returns (Some 5%N)
    else Js.Throws "JsonWebTokenError"
  else Js.Throws "JsonWebTokenError".

(** Coordinates of two finite numbers, [[0, 1e308]], and coordinates of
    a single number, [[2.3522]]. *)
Definition farNorth : User :=
  mkUser 9 (Some 946684800000) Fixture.femmeSeekingHomme "zen"
         (mkLocation (Some [0; 0x1.1ccf385ebc8ap+1023]%float))
         true false 1793510000000 Fixture.defaults.

Definition halfSet : User :=
  mkUser 10 (Some 946684800000) Fixture.femmeSeekingHomme "zen"
         (mkLocation (Some [0x1.2d14e3bcd35a8p+1]%float))
         true false 1793500000000 Fixture.defaults.

(** [a.distanceTo(b)] on the host of the examples. *)
Definition distance (a b : User) : option float :=
  distanceTo Host.Math_sin Host.Math_cos Host.Math_round Host.Math_atan2 a b.

End Fixture2.

(** * Properties *)

(** ** Gender compatibility *)

Lemma includes_true (arr : list string) (x : string) :
  Js.includes arr x = true <-> x ∈ arr.
Proof.
  unfold Js.includes. rewrite existsb_exists. split.
  - intros (y & Hy & Heq). apply String.eqb_eq in Heq. subst y.
    by apply list_elem_of_In.
  - intros Hin. exists x. split; [by apply list_elem_of_In|].
    apply String.eqb_refl.
Qed.

Lemma includes_false (arr : list string) (x : string) :
  Js.includes arr x = false <-> x ∉ arr.
Proof.
  rewrite <- includes_true. destruct (Js.includes arr x); split; done.
Qed.

(** C5: gender compatibility gives the same boolean when its two
    arguments are swapped. *)
Theorem isGenderCompatibleWith_symmetric (a b : User) :
  isGenderCompatibleWith a b = isGenderCompatibleWith b a.
Proof.
  unfold isGenderCompatibleWith. cbv zeta. apply andb_comm.
Qed.

(** C6: when [a]'s [interestedIn] is empty, or holds neither [b]'s gender
    nor the wildcard ['tous'], [a] and [b] are not compatible: an empty
    [interestedIn] is no wildcard. *)
Theorem isGenderCompatibleWith_no_implicit_wildcard (a b : User) :
  interestedIn (genderIdentity a) = []
  \/ ((myGender (genderIdentity b) ∉ interestedIn (genderIdentity a))
      /\ ("tous"%string ∉ interestedIn (genderIdentity a))) ->
  isGenderCompatibleWith a b = false.
Proof.
  intros H. unfold isGenderCompatibleWith. cbv zeta.
  assert (Hg : Js.includes (interestedIn (genderIdentity a))
                 (myGender (genderIdentity b)) = false
               /\ Js.includes (interestedIn (genderIdentity a)) "tous" = false).
  { destruct H as [Hnil | [Hg Ht]].
    - rewrite Hnil. by split.
    - split; by apply includes_false. }
  destruct Hg as [-> ->]. reflexivity.
Qed.

Lemma isGenderCompatibleWith_no_implicit_wildcard_witness :
  interestedIn (genderIdentity Fixture.silent) = []
  /\ isGenderCompatibleWith Fixture.silent Fixture.rival = false.
Proof.
  split; [reflexivity|].
  apply (isGenderCompatibleWith_no_implicit_wildcard
           Fixture.silent Fixture.rival).
  left. reflexivity.
Defined.

(** ** The store *)

Section StoreFacts.

Variable geoNear : Location -> Z -> Location -> bool.

Lemma elem_of_applyLimit (n : Z) (docs : list User) (c : User) :
  c ∈ applyLimit n docs -> c ∈ docs.
Proof.
  unfold applyLimit. destruct (n =? 0); [done|].
  apply subseteq_take.
Qed.

(** Every document [find] returns is a document of the collection that
    matches the filter. *)
Lemma elem_of_find (store : list User) (q : Query) (c : User) :
  c ∈ find geoNear store q ->
  c ∈ store /\ matchesQuery geoNear q c = true.
Proof.
  unfold find. intros Hc. apply elem_of_applyLimit in Hc.
  rewrite merge_sort_Permutation in Hc.
  apply list_elem_of_In, filter_In in Hc. destruct Hc as [Hin Hm].
  split; [by apply list_elem_of_In | done].
Qed.

(** Without a limit, [find] returns every matching document. *)
Lemma elem_of_find_unlimited (store : list User) (q : Query) (c : User) :
  q_limit q = 0 ->
  c ∈ find geoNear store q <->
  c ∈ store /\ matchesQuery geoNear q c = true.
Proof.
  intros Hl. split; [apply elem_of_find|].
  intros [Hin Hm]. unfold find, applyLimit. rewrite Hl. simpl.
  rewrite merge_sort_Permutation.
  apply list_elem_of_In, filter_In. split; [by apply list_elem_of_In | done].
Qed.

Lemma matchesQuery_true (q : Query) (c : User) :
  matchesQuery geoNear q c = true <->
  _id c <> q_id_ne q
  /\ isActive c = q_isActive q
  /\ isBanned c = q_isBanned q
  /\ geoNear (q_near_geometry q) (q_near_maxDistance q) (location c) = true
  /\ inDateRange q c = true
  /\ hasMood q c = true.
Proof.
  unfold matchesQuery. rewrite !andb_true_iff, negb_true_iff, N.eqb_neq.
  rewrite !Bool.eqb_true_iff. tauto.
Qed.

Lemma inDateRange_true (q : Query) (c : User) :
  inDateRange q c = true <->
  exists dob, dateOfBirth c = Some dob
              /\ q_dateOfBirth_gte q <= dob <= q_dateOfBirth_lte q.
Proof.
  unfold inDateRange. destruct (dateOfBirth c) as [d|].
  - rewrite andb_true_iff, !Z.leb_le. split.
    + intros H. exists d. split; [done | lia].
    + intros (dob & [= <-] & H). lia.
  - split; [done|]. by intros (dob & ? & _).
Qed.

(** The result of [find] is ordered by [lastSeen], most recent first. *)
Lemma find_sorted (store : list User) (q : Query) :
  Sorted lastSeenDesc (find geoNear store q).
Proof.
  assert (Htotal : Total lastSeenDesc).
  { intros a b. unfold lastSeenDesc. lia. }
  assert (Htrans : Transitive lastSeenDesc).
  { intros a b c. unfold lastSeenDesc. lia. }
  unfold find, applyLimit.
  set (l := merge_sort _ _).
  assert (Hs : StronglySorted lastSeenDesc l)
    by apply (StronglySorted_merge_sort _).
  destruct (q_limit q =? 0); [by apply StronglySorted_Sorted|].
  apply StronglySorted_Sorted.
  rewrite <- (take_drop (Z.to_nat (Z.abs (q_limit q))) l) in Hs.
  by apply StronglySorted_app_1_l in Hs.
Qed.

End StoreFacts.

(** ** Calendar arithmetic *)

Module DateFacts.
Import JsDate.

Lemma monthOfDay_range (leap d : Z) : 0 <= monthOfDay leap d <= 11.
Proof.
  unfold monthOfDay.
  repeat match goal with
         | |- context [if ?b then _ else _] => destruct b
         end; lia.
Qed.

Lemma daysBeforeMonth_leap (l1 l2 m : Z) :
  0 <= l1 <= 1 -> 0 <= l2 <= 1 ->
  -1 <= daysBeforeMonth l1 m - daysBeforeMonth l2 m <= 1.
Proof.
  intros H1 H2. unfold daysBeforeMonth.
  destruct m as [|p|p]; try lia.
  do 4 (destruct p as [p|p|]; try lia).
Qed.

Lemma InLeapYear_range (t : Z) : 0 <= InLeapYear t <= 1.
Proof. unfold InLeapYear. destruct (isLeapYear _); lia. Qed.

(** [YearFromTime] meets its specification: it is the largest year
    that starts no later than [t]. *)
Lemma YearFromTime_spec (t : Z) :
  DayFromYear (YearFromTime t) <= Day t < DayFromYear (YearFromTime t + 1).
Proof.
  unfold YearFromTime. cbv zeta.
  generalize (Day t). intros d.
  destruct (Z.leb_spec (DayFromYear (1970 + d * 400 / 146097 + 1)) d)
    as [H1|H1].
  - split; [exact H1|].
    revert H1. unfold DayFromYear. Z.div_mod_to_equations. lia.
  - destruct (Z.ltb_spec d (DayFromYear (1970 + d * 400 / 146097)))
      as [H2|H2].
    + split.
      * revert H1 H2. unfold DayFromYear. Z.div_mod_to_equations. lia.
      * replace (1970 + d * 400 / 146097 - 1 + 1)
          with (1970 + d * 400 / 146097) by lia.
        exact H2.
    + split; [exact H2 | exact H1].
Qed.

Lemma DayFromYear_mono (y1 y2 : Z) :
  y1 <= y2 -> DayFromYear y1 <= DayFromYear y2.
Proof.
  intros Hy. unfold DayFromYear. Z.div_mod_to_equations. lia.
Qed.

Lemma YearFromTime_largest (t y : Z) :
  TimeFromYear (YearFromTime t) <= t
  /\ (TimeFromYear y <= t -> y <= YearFromTime t).
Proof.
  pose proof (YearFromTime_spec t) as [Hlo Hhi].
  unfold TimeFromYear, Day in *.
  pose proof (Z.div_mod t msPerDay) as Hdm.
  pose proof (Z.mod_pos_bound t msPerDay) as Hmb.
  unfold msPerDay in *. split; [lia|].
  intros Hy.
  destruct (Z.le_gt_cases y (YearFromTime t)) as [Hle|Hgt]; [exact Hle|].
  pose proof (DayFromYear_mono (YearFromTime t + 1) y) as Hmono. lia.
Qed.

Lemma DayFromYear_succ (y : Z) :
  DayFromYear (y + 1) = DayFromYear y + DaysInYear y.
Proof.
  unfold DayFromYear, DaysInYear, isLeapYear.
  destruct (Z.eqb_spec (y mod 4) 0), (Z.eqb_spec (y mod 100) 0),
    (Z.eqb_spec (y mod 400) 0); simpl; Z.div_mod_to_equations; lia.
Qed.

Lemma DayWithinYear_range (t : Z) :
  0 <= DayWithinYear t < DaysInYear (YearFromTime t).
Proof.
  pose proof (YearFromTime_spec t) as H.
  rewrite DayFromYear_succ in H. unfold DayWithinYear. lia.
Qed.

Example date_2026_11_02 :
  (YearFromTime 1793577600000, MonthFromTime 1793577600000,
   DateFromTime 1793577600000) = (2026, 10, 2).
Proof. reflexivity. Qed.

Example date_before_epoch :
  (YearFromTime (-1), MonthFromTime (-1), DateFromTime (-1)) = (1969, 11, 31).
Proof. reflexivity. Qed.

Example leap_day_rolls_over :
  newDate utcHost 2023 1 29 = newDate utcHost 2023 2 1
  /\ DateFromTime (newDate utcHost 2024 1 29) = 29.
Proof. split; reflexivity. Qed.

Example newDate_2005_11_02 : newDate utcHost 2005 10 2 = 1130889600000.
Proof. reflexivity. Qed.

(** The day of a time value, from its year, month and date. *)
Lemma MakeDay_of_time (t : Z) :
  MakeDay (YearFromTime t) (MonthFromTime t) (DateFromTime t) = Day t.
Proof.
  unfold MakeDay, DateFromTime.
  pose proof (monthOfDay_range (InLeapYear t) (DayWithinYear t)) as Hm.
  fold (MonthFromTime t) in Hm.
  rewrite (Z.div_small (MonthFromTime t) 12), (Z.mod_small (MonthFromTime t) 12)
    by lia.
  rewrite Z.add_0_r. fold (InLeapYear t).
  unfold DayWithinYear. lia.
Qed.

(** Days between the first days of two years [a] years apart. *)
Lemma DayFromYear_span (y a : Z) :
  0 <= a <= 1000 ->
  1461 * a - 41 <= 4 * (DayFromYear y - DayFromYear (y - a)) <= 1461 * a + 11.
Proof.
  intros Ha. unfold DayFromYear. Z.div_mod_to_equations. lia.
Qed.

(** Days between a day and the same calendar day [a] years earlier. *)
Lemma MakeDay_span (t a : Z) :
  0 <= a <= 1000 ->
  1461 * a - 45
  <= 4 * (Day t - MakeDay (YearFromTime t - a) (MonthFromTime t) (DateFromTime t))
  <= 1461 * a + 15.
Proof.
  intros Ha.
  pose proof (MakeDay_of_time t) as Hrt.
  pose proof (monthOfDay_range (InLeapYear t) (DayWithinYear t)) as Hm.
  fold (MonthFromTime t) in Hm.
  pose proof (DayFromYear_span (YearFromTime t) a Ha) as Hy.
  generalize dependent (Day t). generalize dependent (DateFromTime t).
  generalize dependent (MonthFromTime t).
  generalize dependent (YearFromTime t).
  intros Y Hy M Hm D d Hrt. unfold MakeDay in *.
  assert (Hq : M / 12 = 0) by (apply Z.div_small; lia).
  assert (Hr : M mod 12 = M) by (apply Z.mod_small; lia).
  rewrite Hq, Hr, !Z.add_0_r in *.
  assert (Hd : -1 <= daysBeforeMonth (if isLeapYear Y then 1 else 0) M
                     - daysBeforeMonth (if isLeapYear (Y - a) then 1 else 0) M
                  <= 1).
  { apply daysBeforeMonth_leap;
      destruct (isLeapYear Y), (isLeapYear (Y - a)); lia. }
  lia.
Qed.

(** The time elapsed since the local midnight that began the same
    calendar day [a] years ago, on a host whose offset from UTC stays
    within a day. *)
Lemma newDate_years_ago (LocalTZA : Z -> bool -> Z) (now a : Z) :
  (forall t b, - msPerDay <= LocalTZA t b <= msPerDay) ->
  0 <= a <= 1000 ->
  100 <= getFullYear LocalTZA now - a ->
  (a - 1) * msPerAgeYear
  <= now - newDate LocalTZA (getFullYear LocalTZA now - a)
             (getMonth LocalTZA now) (getDate LocalTZA now)
  < (a + 1) * msPerAgeYear.
Proof.
  intros Htz Ha Hy.
  unfold newDate, getFullYear, getMonth, getDate, UTC, MakeDate in *.
  unfold MakeFullYear.
  replace ((0 <=? YearFromTime (LocalTime LocalTZA now) - a)
           && (YearFromTime (LocalTime LocalTZA now) - a <=? 99)) with false
    by (symmetry; apply andb_false_iff; right; apply Z.leb_gt; lia).
  pose proof (MakeDay_span (LocalTime LocalTZA now) a Ha) as Hs.
  set (md := MakeDay _ _ _) in *.
  pose proof (Htz (md * msPerDay + 0) false) as Ht2.
  pose proof (Htz now true) as Ht1.
  unfold Day, LocalTime in *.
  pose proof (Z.div_mod (now + LocalTZA now true) msPerDay) as Hdm.
  pose proof (Z.mod_pos_bound (now + LocalTZA now true) msPerDay) as Hmb.
  unfold msPerDay, msPerAgeYear in *. lia.
Qed.

End DateFacts.

(** ** [findCompatibleUsers] *)

Section QueryFacts.

Variable LocalTZA : Z -> bool -> Z.
Variables (now : Z) (user : User) (options : Options).

Local Abbreviation query := (compatibleUsersQuery LocalTZA now user options).

Lemma query_id_ne : q_id_ne query = _id user.
Proof. reflexivity. Qed.

Lemma query_isActive : q_isActive query = true.
Proof. reflexivity. Qed.

Lemma query_isBanned : q_isBanned query = false.
Proof. reflexivity. Qed.

Lemma query_near_geometry : q_near_geometry query = location user.
Proof. reflexivity. Qed.

Lemma query_near_maxDistance :
  q_near_maxDistance query = resolvedMaxDistance user options.
Proof. reflexivity. Qed.

Lemma query_dateOfBirth_gte :
  q_dateOfBirth_gte query = minBirthDate LocalTZA now user options.
Proof. reflexivity. Qed.

Lemma query_dateOfBirth_lte :
  q_dateOfBirth_lte query = maxBirthDate LocalTZA now user options.
Proof. reflexivity. Qed.

Lemma query_currentMood :
  q_currentMood query
  = if Js.truthy (mood options) then mood options else None.
Proof. reflexivity. Qed.

Lemma hasMood_query (c : User) :
  hasMood query c = true ->
  forall m, mood options = Some m -> m <> ""%string -> currentMood c = m.
Proof.
  unfold hasMood. rewrite query_currentMood.
  intros Hm m Hmood Hne. rewrite Hmood in Hm. simpl in Hm.
  destruct (String.eqb_spec m "") as [Heq|_]; [by destruct Hne|].
  simpl in Hm. by apply String.eqb_eq.
Qed.

End QueryFacts.

Lemma matchesQuery_Eligible
    (LocalTZA : Z -> bool -> Z) (geoNear : Location -> Z -> Location -> bool)
    (now : Z) (user : User) (options : Options) (c : User) :
  matchesQuery geoNear (compatibleUsersQuery LocalTZA now user options) c
  = true ->
  Eligible LocalTZA geoNear now user options c.
Proof.
  intros Hm. apply matchesQuery_true in Hm.
  rewrite inDateRange_true in Hm.
  rewrite query_id_ne, query_isActive, query_isBanned, query_near_geometry,
    query_near_maxDistance, query_dateOfBirth_gte, query_dateOfBirth_lte
    in Hm.
  destruct Hm as (H1 & H2 & H3 & H4 & H5 & H6).
  constructor; try assumption.
  exact (hasMood_query LocalTZA now user options c H6).
Qed.

(** Every candidate is a document of the collection that the query
    finds. *)
Lemma candidates_Eligible
    (LocalTZA : Z -> bool -> Z) (geoNear : Location -> Z -> Location -> bool)
    (store : list User) (now : Z) (user : User) (options : Options)
    (c : User) :
  c ∈ candidates (findCompatibleUsers LocalTZA geoNear store now user options) ->
  c ∈ store /\ Eligible LocalTZA geoNear now user options c.
Proof.
  unfold findCompatibleUsers, candidates. intros Hc.
  apply elem_of_find in Hc as [Hin Hm].
  split; [exact Hin | by apply matchesQuery_Eligible].
Qed.

Lemma fixture_search :
  Fixture.search Fixture.requester noOptions =
  Js.Returns [Fixture.rival; Fixture.partner; Fixture.comingOfAge;
                Fixture.silent].
Proof. vm_compute. reflexivity. Qed.

Lemma fixture_partner :
  Fixture.partner ∈ candidates (Fixture.search Fixture.requester noOptions).
Proof.
  rewrite fixture_search. apply list_elem_of_further, list_elem_of_here.
Defined.

(** C3: no candidate is the requester, and every candidate is active and
    not banned. *)
Theorem findCompatibleUsers_excludes
    (LocalTZA : Z -> bool -> Z) (geoNear : Location -> Z -> Location -> bool)
    (store : list User) (now : Z) (user : User) (options : Options)
    (c : User) :
  c ∈ candidates (findCompatibleUsers LocalTZA geoNear store now user options) ->
  c <> user /\ _id c <> _id user /\ isActive c = true /\ isBanned c = false.
Proof.
  intros Hc. apply candidates_Eligible in Hc as [_ [Hid Hact Hban _ _ _]].
  repeat split; try assumption.
  intros ->. by apply Hid.
Qed.

Lemma findCompatibleUsers_excludes_witness :
  Fixture.partner ∈ candidates (Fixture.search Fixture.requester noOptions)
  /\ Fixture.partner <> Fixture.requester
  /\ isActive Fixture.partner = true
  /\ isBanned Fixture.partner = false.
Proof.
  split; [exact fixture_partner|].
  destruct (findCompatibleUsers_excludes JsDate.utcHost Fixture.onQueryPoint
              Fixture.store Fixture.now Fixture.requester noOptions
              Fixture.partner fixture_partner) as (Hne & _ & Hact & Hban).
  auto.
Defined.

(** C1, as the code has it: [findCompatibleUsers] returns what the
    storage query finds, and gender is no part of that query: the result
    is the same whatever the requester's gender identity.  The candidates
    compatible with the requester are those a post-filter with
    [isGenderCompatibleWith] keeps, a sub-sequence of the result. *)
Theorem findCompatibleUsers_gender_post_filter
    (LocalTZA : Z -> bool -> Z) (geoNear : Location -> Z -> Location -> bool)
    (store : list User) (now : Z) (user : User) (options : Options) :
  let docs :=
    candidates (findCompatibleUsers LocalTZA geoNear store now user options) in
  let kept := List.filter (isGenderCompatibleWith user) docs in
  Forall (Eligible LocalTZA geoNear now user options) docs
  /\ Forall (fun c => isGenderCompatibleWith user c = true) kept
  /\ kept `sublist_of` docs
  /\ forall g,
       findCompatibleUsers LocalTZA geoNear store now
         (mkUser (_id user) (dateOfBirth user) g (currentMood user)
                 (location user) (isActive user) (isBanned user)
                 (lastSeen user) (preferences user)) options
       = findCompatibleUsers LocalTZA geoNear store now user options.
Proof.
  intros docs kept. split; [|split; [|split]].
  - apply Forall_forall. intros c Hc.
    by apply candidates_Eligible in Hc as [_ He].
  - apply Forall_forall. intros c Hc.
    apply list_elem_of_In, filter_In in Hc. tauto.
  - subst kept. induction docs as [|d docs IH]; simpl.
    + constructor.
    + destruct (isGenderCompatibleWith user d); by constructor.
  - intros g.
    unfold findCompatibleUsers, compatibleUsersQuery, minBirthDate,
      maxBirthDate, resolvedMaxDistance, resolvedAgeMin, resolvedAgeMax.
    cbn [_id location preferences]. reflexivity.
Qed.

(** C1 fails as stated: the requester and [rival] both declare ['homme']
    and seek ['femme'], and [rival] is returned. *)
Lemma findCompatibleUsers_returns_incompatible :
  Fixture.rival ∈ candidates (Fixture.search Fixture.requester noOptions)
  /\ isGenderCompatibleWith Fixture.requester Fixture.rival = false.
Proof.
  split; [|reflexivity].
  rewrite fixture_search. apply list_elem_of_here.
Qed.

(** For a requester whose location is the schema default, the call
    completes normally, with the candidates the store finds around the
    point [[0, 0]]. *)
Lemma findCompatibleUsers_default_location
    (LocalTZA : Z -> bool -> Z) (geoNear : Location -> Z -> Location -> bool)
    (store : list User) (now : Z) (user : User) (options : Options) :
  location user = default_location ->
  exists docs,
    findCompatibleUsers LocalTZA geoNear store now user options
    = Js.Returns docs
    /\ forall c, c ∈ docs ->
         c ∈ store
         /\ geoNear default_location (resolvedMaxDistance user options)
                    (location c) = true.
Proof.
  intros Hloc.
  exists (candidates
            (findCompatibleUsers LocalTZA geoNear store now user options)).
  split; [reflexivity|].
  intros c Hc. apply candidates_Eligible in Hc as [Hin [_ _ _ Hnear _ _]].
  split; [exact Hin|]. rewrite <- Hloc. exact Hnear.
Qed.

(** A store that accepts the query answers with what
    [findCompatibleUsers] finds. *)
Lemma awaitFindCompatibleUsers_accepted
    (LocalTZA : Z -> bool -> Z) (geoNear : Location -> Z -> Location -> bool)
    (rejects : Query -> option string)
    (store : list User) (now : Z) (user : User) (options : Options) :
  rejects (compatibleUsersQuery LocalTZA now user options) = None ->
  awaitFindCompatibleUsers LocalTZA geoNear rejects store now user options
  = findCompatibleUsers LocalTZA geoNear store now user options.
Proof.
  intros Hq. unfold awaitFindCompatibleUsers, exec, findCompatibleUsers.
  by rewrite Hq.
Qed.

Lemma awaitFindCompatibleUsers_rejected
    (LocalTZA : Z -> bool -> Z) (geoNear : Location -> Z -> Location -> bool)
    (rejects : Query -> option string)
    (store : list User) (now : Z) (user : User) (options : Options)
    (e : string) :
  rejects (compatibleUsersQuery LocalTZA now user options) = Some e ->
  awaitFindCompatibleUsers LocalTZA geoNear rejects store now user options
  = Js.Throws e.
Proof.
  intros Hq. unfold awaitFindCompatibleUsers, exec. by rewrite Hq.
Qed.

(** C2, as the code has it: a requester without coordinates is not turned
    away by [findCompatibleUsers], which has no check and no error of its
    own.  The location goes into the query as it is; the awaited call
    fails exactly when the store rejects that query, and then with the
    error of the store; when the store accepts the query, the call
    returns what the store finds for it, each document one of the store
    that passes the other filters as for any requester and that the
    store holds to be near the location without coordinates. *)
Theorem findCompatibleUsers_no_coordinates
    (LocalTZA : Z -> bool -> Z) (geoNear : Location -> Z -> Location -> bool)
    (rejects : Query -> option string)
    (store : list User) (now : Z) (user : User) (options : Options) :
  coordinates (location user) = None ->
  let q := compatibleUsersQuery LocalTZA now user options in
  let r :=
    awaitFindCompatibleUsers LocalTZA geoNear rejects store now user options in
  coordinates (q_near_geometry q) = None
  /\ (forall e, r = Js.Throws e <-> rejects q = Some e)
  /\ (rejects q = None ->
      r = Js.Returns (find geoNear store q)
      /\ forall c, c ∈ candidates r ->
           c ∈ store
           /\ Eligible LocalTZA geoNear now user options c
           /\ geoNear (mkLocation None) (resolvedMaxDistance user options)
                      (location c) = true).
Proof.
  intros Hloc q r.
  assert (Hgeometry : q_near_geometry q = mkLocation None).
  { unfold q. rewrite query_near_geometry.
    destruct (location user) as [cs]. simpl in Hloc. by rewrite Hloc. }
  split; [by rewrite Hgeometry|]. split.
  - intros e. unfold r, awaitFindCompatibleUsers, exec. fold q.
    destruct (rejects q) as [e'|].
    + split; intros [= ->]; reflexivity.
    + split; discriminate.
  - intros Hq.
    assert (Hr : r = findCompatibleUsers LocalTZA geoNear store now user
                       options)
      by (by apply awaitFindCompatibleUsers_accepted).
    split; [exact Hr|].
    intros c Hc. rewrite Hr in Hc.
    apply candidates_Eligible in Hc as [Hin Heligible].
    split; [exact Hin|]. split; [exact Heligible|].
    destruct Heligible as [_ _ _ Hnear _ _].
    destruct (location user) as [cs]. simpl in Hloc. by rewrite Hloc in Hnear.
Qed.

Lemma findCompatibleUsers_no_coordinates_witness :
  coordinates (location Fixture.unlocated) = None
  /\ let q :=
       compatibleUsersQuery JsDate.utcHost Fixture.now Fixture.unlocated
         noOptions in
     let r := Fixture.awaitSearch Fixture.strict Fixture.unlocated noOptions in
     coordinates (q_near_geometry q) = None
     /\ (forall e, r = Js.Throws e <-> Fixture.strict q = Some e)
     /\ (Fixture.strict q = None ->
         r = Js.Returns (find Fixture.onQueryPoint Fixture.store q)
         /\ forall c, c ∈ candidates r ->
              c ∈ Fixture.store
              /\ Eligible JsDate.utcHost Fixture.onQueryPoint Fixture.now
                   Fixture.unlocated noOptions c
              /\ Fixture.onQueryPoint (mkLocation None)
                   (resolvedMaxDistance Fixture.unlocated noOptions)
                   (location c) = true).
Proof.
  split; [reflexivity|].
  apply (findCompatibleUsers_no_coordinates JsDate.utcHost
           Fixture.onQueryPoint Fixture.strict Fixture.store Fixture.now
           Fixture.unlocated noOptions).
  reflexivity.
Defined.

(** C2 fails as stated, whatever "no location set" means.  A requester
    who never set a location has the schema default, and the call returns
    four candidates.  A requester without coordinates gets the error of
    the store from a store that rejects the query, and no candidate, in
    silence, from a store that answers it.  In no case is there an
    [InvalidQueryState]. *)
Lemma findCompatibleUsers_no_location_no_InvalidQueryState :
  (location Fixture.requester = default_location
   /\ Fixture.search Fixture.requester noOptions
      = Js.Returns [Fixture.rival; Fixture.partner; Fixture.comingOfAge;
                 Fixture.silent])
  /\ coordinates (location Fixture.unlocated) = None
  /\ Fixture.awaitSearch Fixture.strict Fixture.unlocated noOptions
     = Js.Throws "MongoServerError"
  /\ Fixture.awaitSearch Fixture.lenient Fixture.unlocated noOptions
     = Js.Returns []
  /\ Fixture.search Fixture.unlocated noOptions = Js.Returns []
  /\ Fixture.awaitSearch Fixture.strict Fixture.unlocated noOptions
     <> Js.Throws "InvalidQueryState"
  /\ Fixture.awaitSearch Fixture.lenient Fixture.unlocated noOptions
     <> Js.Throws "InvalidQueryState"
  /\ Fixture.search Fixture.requester noOptions
     <> Js.Throws "InvalidQueryState".
Proof.
  assert (Hstrict :
            Fixture.awaitSearch Fixture.strict Fixture.unlocated noOptions
            = Js.Throws "MongoServerError")
    by (vm_compute; reflexivity).
  assert (Hsearch : Fixture.search Fixture.unlocated noOptions = Js.Returns [])
    by (vm_compute; reflexivity).
  assert (Hlenient :
            Fixture.awaitSearch Fixture.lenient Fixture.unlocated noOptions
            = Js.Returns [])
    by (vm_compute; reflexivity).
  split; [split; [reflexivity | apply fixture_search]|].
  split; [reflexivity|]. split; [exact Hstrict|]. split; [exact Hlenient|].
  split; [exact Hsearch|].
  rewrite Hstrict, Hlenient, fixture_search. by repeat split.
Qed.

(** Time elapsed since the two birth-date bounds of the query. *)
Lemma maxBirthDate_elapsed
    (LocalTZA : Z -> bool -> Z) (now : Z) (user : User) (options : Options) :
  (forall t b, - JsDate.msPerDay <= LocalTZA t b <= JsDate.msPerDay) ->
  0 <= resolvedAgeMin user options <= 1000 ->
  100 <= JsDate.getFullYear LocalTZA now - resolvedAgeMin user options ->
  (resolvedAgeMin user options - 1) * msPerAgeYear
  <= now - maxBirthDate LocalTZA now user options
  < (resolvedAgeMin user options + 1) * msPerAgeYear.
Proof.
  intros Htz Ha Hy. unfold maxBirthDate.
  by apply DateFacts.newDate_years_ago.
Qed.

Lemma minBirthDate_elapsed
    (LocalTZA : Z -> bool -> Z) (now : Z) (user : User) (options : Options) :
  (forall t b, - JsDate.msPerDay <= LocalTZA t b <= JsDate.msPerDay) ->
  0 <= resolvedAgeMax user options <= 1000 ->
  100 <= JsDate.getFullYear LocalTZA now - resolvedAgeMax user options ->
  (resolvedAgeMax user options - 1) * msPerAgeYear
  <= now - minBirthDate LocalTZA now user options
  < (resolvedAgeMax user options + 1) * msPerAgeYear.
Proof.
  intros Htz Ha Hy. unfold minBirthDate.
  by apply DateFacts.newDate_years_ago.
Qed.

(** C4, as the code has it: the query bounds the date of birth by the
    local midnights of today's calendar day [ageMax] and [ageMin] years
    ago.  The age computed from 365.25-day years is then at most
    [ageMax], and at least [ageMin - 1]. *)
Theorem findCompatibleUsers_age_range
    (LocalTZA : Z -> bool -> Z) (geoNear : Location -> Z -> Location -> bool)
    (store : list User) (now : Z) (user : User) (options : Options)
    (c : User) :
  (forall t b, - JsDate.msPerDay <= LocalTZA t b <= JsDate.msPerDay) ->
  0 <= resolvedAgeMin user options <= resolvedAgeMax user options ->
  resolvedAgeMax user options <= 1000 ->
  100 <= JsDate.getFullYear LocalTZA now - resolvedAgeMax user options ->
  c ∈ candidates (findCompatibleUsers LocalTZA geoNear store now user options) ->
  exists dob a,
    dateOfBirth c = Some dob
    /\ minBirthDate LocalTZA now user options <= dob
       <= maxBirthDate LocalTZA now user options
    /\ age now c = Some a
    /\ resolvedAgeMin user options - 1 <= a <= resolvedAgeMax user options.
Proof.
  intros Htz Hages Hcap Hyear Hc.
  apply candidates_Eligible in Hc as [_ [_ _ _ _ (dob & Hdob & Hrange) _]].
  exists dob, ((now - dob) / msPerAgeYear).
  split; [exact Hdob|]. split; [exact Hrange|].
  split; [unfold age; rewrite Hdob; reflexivity|].
  assert (Hlo := maxBirthDate_elapsed LocalTZA now user options Htz
                   ltac:(lia) ltac:(lia)).
  assert (Hhi := minBirthDate_elapsed LocalTZA now user options Htz
                   ltac:(lia) ltac:(lia)).
  unfold msPerAgeYear in *.
  split.
  - apply Z.div_le_lower_bound; [reflexivity|]. lia.
  - apply Z.lt_succ_r, Z.div_lt_upper_bound; [reflexivity|]. lia.
Qed.

Lemma findCompatibleUsers_age_range_witness :
  Fixture.partner ∈ candidates (Fixture.search Fixture.requester noOptions)
  /\ exists dob a,
       dateOfBirth Fixture.partner = Some dob
       /\ minBirthDate JsDate.utcHost Fixture.now Fixture.requester noOptions
          <= dob
          <= maxBirthDate JsDate.utcHost Fixture.now Fixture.requester noOptions
       /\ age Fixture.now Fixture.partner = Some a
       /\ resolvedAgeMin Fixture.requester noOptions - 1 <= a
          <= resolvedAgeMax Fixture.requester noOptions.
Proof.
  split; [exact fixture_partner|].
  apply (findCompatibleUsers_age_range JsDate.utcHost Fixture.onQueryPoint
           Fixture.store Fixture.now Fixture.requester noOptions
           Fixture.partner).
  - intros t b. unfold JsDate.utcHost, JsDate.msPerDay. lia.
  - vm_compute. split; discriminate.
  - vm_compute. discriminate.
  - vm_compute. discriminate.
  - exact fixture_partner.
Defined.

(** C4 fails as stated: asked for the ages 21 to 35, the query returns
    [comingOfAge], whose twenty-first birthday is today and whose age, in
    365.25-day years, is 20. *)
Lemma findCompatibleUsers_returns_age_below_ageMin :
  resolvedAgeMin Fixture.requester Fixture.from21 = 21
  /\ resolvedAgeMax Fixture.requester Fixture.from21 = 35
  /\ Fixture.comingOfAge
     ∈ candidates (Fixture.search Fixture.requester Fixture.from21)
  /\ age Fixture.now Fixture.comingOfAge = Some 20.
Proof.
  split; [reflexivity|]. split; [reflexivity|]. split; [|reflexivity].
  assert (Hs : Fixture.search Fixture.requester Fixture.from21
               = Js.Returns [Fixture.rival; Fixture.partner;
                             Fixture.comingOfAge; Fixture.silent])
    by (vm_compute; reflexivity).
  rewrite Hs.
  apply list_elem_of_further, list_elem_of_further, list_elem_of_here.
Qed.

(** ** Distance *)

(** C8: [distanceTo] returns [null] exactly when one of the two documents
    has no coordinates, and a number otherwise; the default coordinates
    [[0, 0]] are present coordinates. *)
Theorem distanceTo_null_iff_absent
    (Math_sin Math_cos Math_round : float -> float)
    (Math_atan2 : float -> float -> float) (a b : User) :
  (distanceTo Math_sin Math_cos Math_round Math_atan2 a b = None <->
   coordinates (location a) = None \/ coordinates (location b) = None)
  /\ (location a = default_location -> location b = default_location ->
      distanceTo Math_sin Math_cos Math_round Math_atan2 a b
      = Some (haversine Math_sin Math_cos Math_round Math_atan2
                [0%float; 0%float] [0%float; 0%float])).
Proof.
  unfold distanceTo. split.
  - destruct (coordinates (location a)), (coordinates (location b));
      split; intros H; try done; auto.
    by destruct H.
  - by intros -> ->.
Qed.

(** ** The arithmetic of binary64

    Facts about the specification of the operations ([SpecFloat]), and
    through it about the primitive numbers. *)

Module SpecFacts.

Import SpecFloat FloatOps.

Section Generic.
Variables prec emax : Z.

Lemma SFopp_involutive (x : spec_float) : SFopp (SFopp x) = x.
Proof. destruct x; simpl; by rewrite ?negb_involutive. Qed.

Lemma binary_round_aux_opp (s : bool) (m e : Z) (l : location) :
  binary_round_aux prec emax (negb s) m e l
  = SFopp (binary_round_aux prec emax s m e l).
Proof.
  unfold binary_round_aux.
  destruct (shr_fexp prec emax m e l) as [mrs' e'].
  destruct (shr_fexp prec emax _ e' loc_Exact) as [mrs'' e''].
  destruct (shr_m mrs''); [reflexivity| |reflexivity].
  by destruct (e'' <=? emax - prec).
Qed.

Lemma binary_round_opp (s : bool) (m : positive) (e : Z) :
  binary_round prec emax (negb s) m e = SFopp (binary_round prec emax s m e).
Proof.
  unfold binary_round. destruct (shl_align _ _ _) as [mz ez].
  apply binary_round_aux_opp.
Qed.

Lemma SFmul_opp_l (x y : spec_float) :
  SFmul prec emax (SFopp x) y = SFopp (SFmul prec emax x y).
Proof.
  destruct x as [sx|sx| |sx mx ex], y as [sy|sy| |sy my ey]; simpl;
    try reflexivity; try (by destruct sx, sy).
  replace (xorb (negb sx) sy) with (negb (xorb sx sy)) by (by destruct sx, sy).
  apply binary_round_aux_opp.
Qed.

Lemma SFmul_comm (x y : spec_float) :
  SFmul prec emax x y = SFmul prec emax y x.
Proof.
  destruct x as [sx|sx| |sx mx ex], y as [sy|sy| |sy my ey]; simpl;
    try reflexivity; try (by destruct sx, sy).
  by rewrite xorb_comm, Pos.mul_comm, Z.add_comm.
Qed.

Lemma SFdiv_opp_l (x y : spec_float) :
  SFdiv prec emax (SFopp x) y = SFopp (SFdiv prec emax x y).
Proof.
  destruct x as [sx|sx| |sx mx ex], y as [sy|sy| |sy my ey]; simpl;
    try reflexivity; try (by destruct sx, sy).
  destruct (SFdiv_core_binary prec emax (Z.pos mx) ex (Z.pos my) ey)
    as [[mz ez] lz].
  replace (xorb (negb sx) sy) with (negb (xorb sx sy)) by (by destruct sx, sy).
  apply binary_round_aux_opp.
Qed.

Lemma binary_normalize_opp (m e : Z) :
  m <> 0 ->
  binary_normalize prec emax (- m) e false
  = SFopp (binary_normalize prec emax m e false).
Proof.
  destruct m as [|p|p]; [done| |]; intros _; simpl.
  - apply (binary_round_opp false).
  - change true with (negb false).
    by rewrite binary_round_opp, SFopp_involutive.
Qed.

(** Swapping the operands of a subtraction negates the difference, or
    leaves it as it is when it is the zero of two equal numbers. *)
Lemma SFsub_swap (x y : spec_float) :
  SFsub prec emax y x = SFopp (SFsub prec emax x y)
  \/ SFsub prec emax y x = SFsub prec emax x y.
Proof.
  destruct x as [sx|sx| |sx mx ex], y as [sy|sy| |sy my ey]; simpl;
    try (by left); try (by right);
    try (by destruct sx, sy; (by left) || (by right)).
  rewrite (Z.min_comm ey ex).
  set (a := cond_Zopp sx _). set (b := cond_Zopp sy _).
  destruct (Z.eq_dec (a - b) 0) as [Heq|Hne].
  - right. replace (b - a) with 0 by lia. by rewrite Heq.
  - left. replace (b - a) with (- (a - b)) by lia.
    by apply binary_normalize_opp.
Qed.

Lemma binary_round_aux_not_negative (m e : Z) (l : location) :
  SFnot_negative (binary_round_aux prec emax false m e l).
Proof.
  unfold binary_round_aux, SFnot_negative.
  destruct (shr_fexp prec emax m e l) as [mrs' e'].
  destruct (shr_fexp prec emax _ e' loc_Exact) as [mrs'' e''].
  destruct (shr_m mrs''); [reflexivity| |reflexivity].
  by destruct (e'' <=? emax - prec).
Qed.

Lemma SFsqrt_not_negative (x : spec_float) :
  SFnot_negative (SFsqrt prec emax x).
Proof.
  destruct x as [s|[|]| |[|] m e]; simpl; try reflexivity.
  destruct (SFsqrt_core_binary prec emax (Z.pos m) e) as [[mz ez] lz].
  apply binary_round_aux_not_negative.
Qed.

Lemma SFmul_not_negative (m : positive) (e : Z) (t : spec_float) :
  SFnot_negative t ->
  SFnot_negative (SFmul prec emax (S754_finite false m e) t).
Proof.
  destruct t as [s|[|]| |[|] mt et]; simpl; try reflexivity; try discriminate.
  intros _. apply binary_round_aux_not_negative.
Qed.

Lemma SFsub_diag (x : spec_float) :
  SFfinite x = true -> SFsub prec emax x x = S754_zero false.
Proof.
  destruct x as [[|]|s| |s m e]; try discriminate; try reflexivity.
  intros _. unfold SFsub. by rewrite Z.sub_diag.
Qed.

End Generic.


(** ** No overflow in binary64 *)

Lemma fexp_binary64 (x : Z) : fexp prec emax x = Z.max (x - 53) (-1074).
Proof. reflexivity. Qed.

Lemma digits2_pos_le (p : positive) (k : Z) :
  0 <= k -> Z.pos p < 2 ^ k -> Z.pos (digits2_pos p) <= k.
Proof.
  revert k. induction p as [p IH|p IH|]; intros k Hk Hp; simpl digits2_pos.
  - destruct (Z.eq_dec k 0) as [->|Hne]; [simpl in Hp; lia|].
    replace k with (Z.succ (k - 1)) in Hp by lia.
    rewrite Z.pow_succ_r in Hp by lia. rewrite Pos2Z.inj_xI in Hp.
    rewrite Pos2Z.inj_succ. specialize (IH (k - 1)). lia.
  - destruct (Z.eq_dec k 0) as [->|Hne]; [simpl in Hp; lia|].
    replace k with (Z.succ (k - 1)) in Hp by lia.
    rewrite Z.pow_succ_r in Hp by lia. rewrite Pos2Z.inj_xO in Hp.
    rewrite Pos2Z.inj_succ. specialize (IH (k - 1)). lia.
  - destruct (Z.eq_dec k 0) as [->|Hne]; [simpl in Hp; lia|]. lia.
Qed.

Lemma digits2_pos_lt (p : positive) : Z.pos p < 2 ^ Z.pos (digits2_pos p).
Proof.
  induction p as [p IH|p IH|]; simpl digits2_pos; [| |reflexivity].
  - rewrite Pos2Z.inj_succ, Z.pow_succ_r, Pos2Z.inj_xI by lia. lia.
  - rewrite Pos2Z.inj_succ, Z.pow_succ_r, Pos2Z.inj_xO by lia. lia.
Qed.

Lemma Zdigits2_le (m k : Z) :
  0 <= k -> 0 <= m < 2 ^ k -> 0 <= Zdigits2 m <= k.
Proof.
  intros Hk [Hm Hlt]. destruct m as [|p|p]; simpl; [lia| |lia].
  split; [lia|]. by apply digits2_pos_le.
Qed.

Lemma shr_1_bound (M : Z) (mrs : shr_record) :
  0 <= shr_m mrs <= M -> 0 <= shr_m (shr_1 mrs) <= M.
Proof.
  destruct mrs as [m r s]. destruct m as [|[p|p|]|[p|p|]];
    unfold shr_1; cbn [shr_m]; lia.
Qed.

Lemma iter_pos_invariant {A : Type} (P : A -> Prop) (f : A -> A) :
  (forall x, P x -> P (f x)) ->
  forall n x, P x -> P (SpecFloat.iter_pos f n x).
Proof. intros Hf. induction n; intros x Hx; simpl; auto. Qed.

Lemma shr_bound (M : Z) (mrs : shr_record) (e n : Z) :
  0 <= shr_m mrs <= M ->
  0 <= shr_m (shr mrs e n).1 <= M /\ (shr mrs e n).2 = e + Z.max n 0.
Proof.
  intros Hm. destruct n as [|p|p]; simpl; [split; [done|lia]| |split; [done|lia]].
  split; [|lia].
  by apply (iter_pos_invariant (fun mrs => 0 <= shr_m mrs <= M)),
    Hm; apply shr_1_bound.
Qed.

Lemma shr_m_of_loc (m : Z) (l : location) : shr_m (shr_record_of_loc m l) = m.
Proof. by destruct l as [|[| |]]. Qed.

Lemma round_nearest_even_bound (m : Z) (l : location) :
  m <= round_nearest_even m l <= m + 1.
Proof. destruct l as [|[| |]]; simpl; try lia. destruct (Z.even m); lia. Qed.

(** The rounding of [m * 2 ^ e] for a mantissa below [2 ^ k]: zero, or
    finite with an exponent that [k] and [e] bound. *)
Lemma binary_round_aux_exponent (s : bool) (m e : Z) (l : location)
    (k b : Z) :
  0 <= k -> 0 <= m < 2 ^ k ->
  Z.max (2 * k + e) (k - 1074) <= b -> b <= 971 ->
  SFexponent_le (binary_round_aux prec emax s m e l) b.
Proof.
  intros Hk Hm He Hb. unfold binary_round_aux, shr_fexp.
  pose proof (Zdigits2_le m k Hk Hm) as Hd.
  rewrite !fexp_binary64.
  set (n1 := Z.max (Zdigits2 m + e - 53) (-1074) - e).
  pose proof (shr_bound (2 ^ k - 1) (shr_record_of_loc m l) e n1) as H1.
  rewrite shr_m_of_loc in H1.
  destruct (shr (shr_record_of_loc m l) e n1) as [mrs' e'].
  simpl in H1. destruct H1 as [Hm' He']; [lia|].
  set (m1 := round_nearest_even (shr_m mrs') (loc_of_shr_record mrs')).
  pose proof (round_nearest_even_bound (shr_m mrs') (loc_of_shr_record mrs'))
    as Hm1. fold m1 in Hm1.
  assert (Hd1 : 0 <= Zdigits2 m1 <= k + 1).
  { apply Zdigits2_le; [lia|]. rewrite Z.pow_add_r, Z.pow_1_r by lia. lia. }
  rewrite fexp_binary64.
  set (n2 := Z.max (Zdigits2 m1 + e' - 53) (-1074) - e').
  pose proof (shr_bound (2 ^ k) (shr_record_of_loc m1 loc_Exact) e' n2) as H2.
  rewrite shr_m_of_loc in H2.
  destruct (shr (shr_record_of_loc m1 loc_Exact) e' n2) as [mrs'' e''].
  simpl in H2. destruct H2 as [Hm'' He'']; [lia|].
  destruct (shr_m mrs'') as [|p|p]; [exact I| |lia].
  assert (Hle : e'' <= b) by (subst n1 n2; lia).
  assert (Hmax : (e'' <=? emax - prec) = true)
    by (apply Z.leb_le; change (emax - prec) with 971; lia).
  rewrite Hmax. exact Hle.
Qed.

Lemma SFexponent_le_finite (x : spec_float) (b : Z) :
  SFexponent_le x b -> SFfinite x = true.
Proof. by destruct x. Qed.

(** The mantissa of a number of the format has 53 digits at most. *)
Lemma valid_mantissa (s : bool) (m : positive) (e : Z) :
  valid_binary prec emax (S754_finite s m e) = true ->
  Z.pos (digits2_pos m) <= 53 /\ Z.pos m < 2 ^ 53.
Proof.
  intros Hv. simpl in Hv. apply andb_prop in Hv as [Hc _].
  unfold canonical_mantissa in Hc. apply Z.eqb_eq in Hc.
  rewrite fexp_binary64 in Hc.
  assert (Hd : Z.pos (digits2_pos m) <= 53) by lia.
  split; [exact Hd|].
  eapply Z.lt_le_trans; [apply digits2_pos_lt|].
  apply Z.pow_le_mono_r; lia.
Qed.

Lemma SFmul_exponent (x y : spec_float) (bx bY b : Z) :
  valid_binary prec emax x = true -> valid_binary prec emax y = true ->
  SFexponent_le x bx -> SFexponent_le y bY ->
  212 + bx + bY <= b -> -968 <= b <= 971 ->
  SFexponent_le (SFmul prec emax x y) b.
Proof.
  intros Hvx Hvy Hx Hy Hsum Hb.
  destruct x as [sx|sx| |sx mx ex]; try done;
    destruct y as [sy|sy| |sy my ey]; try done.
  apply valid_mantissa in Hvx as [_ Hmx], Hvy as [_ Hmy].
  simpl in Hx, Hy. unfold SFmul.
  apply (binary_round_aux_exponent _ _ _ _ 106); [lia| |lia|lia].
  rewrite Pos2Z.inj_mul. change (2 ^ 106) with (2 ^ 53 * 2 ^ 53). nia.
Qed.

Lemma SFdiv_exponent (x : spec_float) (sy : bool) (my : positive)
    (ey bx b : Z) :
  valid_binary prec emax x = true ->
  valid_binary prec emax (S754_finite sy my ey) = true ->
  SFexponent_le x bx ->
  212 + bx - ey <= b -> -968 <= b <= 971 ->
  SFexponent_le (SFdiv prec emax x (S754_finite sy my ey)) b.
Proof.
  intros Hvx Hvy Hx Hsum Hb.
  destruct x as [sx|sx| |sx mx ex]; try done.
  apply valid_mantissa in Hvx as [Hdx _], Hvy as [Hdy _].
  simpl in Hx. unfold SFdiv, SFdiv_core_binary.
  rewrite fexp_binary64. cbn [Zdigits2].
  pose proof (digits2_pos_lt mx) as Hmx.
  set (d1 := Z.pos (digits2_pos mx)) in *.
  set (d2 := Z.pos (digits2_pos my)) in *.
  set (e' := Z.min (Z.max (d1 + ex - (d2 + ey) - 53) (-1074)) (ex - ey)).
  set (m' := match ex - ey - e' with
             | 0 => Z.pos mx
             | Z.pos _ => Z.shiftl (Z.pos mx) (ex - ey - e')
             | Z.neg _ => 0
             end).
  assert (Hm' : 0 <= m' < 2 ^ 106).
  { subst m'. destruct (ex - ey - e') as [|p|p] eqn:Hs.
    - split; [lia|]. eapply Z.lt_le_trans; [exact Hmx|].
      apply Z.pow_le_mono_r; lia.
    - rewrite Z.shiftl_mul_pow2 by lia.
      assert (Hpow : 0 < 2 ^ Z.pos p) by (apply Z.pow_pos_nonneg; lia).
      split; [nia|].
      apply Z.lt_le_trans with (2 ^ d1 * 2 ^ Z.pos p); [nia|].
      rewrite <- Z.pow_add_r by lia. apply Z.pow_le_mono_r; lia.
    - split; [lia|]. apply Z.pow_pos_nonneg; lia. }
  pose proof (Z_div_mod m' (Z.pos my) ltac:(lia)) as Hdiv.
  destruct (Z.div_eucl m' (Z.pos my)) as [q r].
  destruct Hdiv as [Heq Hr].
  apply (binary_round_aux_exponent _ _ _ _ 106); [lia| |subst e'; lia|lia].
  split; [nia|]. apply Z.le_lt_trans with m'; [nia|lia].
Qed.

End SpecFacts.

Module FloatFacts.

Import SpecFloat FloatOps FloatAxioms.

Lemma Prim2SF_zero : Prim2SF 0 = S754_zero false.
Proof. reflexivity. Qed.

Lemma Prim2SF_one : Prim2SF 1 = S754_finite false 4503599627370496 (-52).
Proof. reflexivity. Qed.

Lemma Prim2SF_minus_one :
  Prim2SF (-1) = S754_finite true 4503599627370496 (-52).
Proof. reflexivity. Qed.

Lemma Prim2SF_nan : Prim2SF nan = S754_nan.
Proof. reflexivity. Qed.

Lemma Prim2SF_infinity : Prim2SF infinity = S754_infinity false.
Proof. reflexivity. Qed.

Lemma opp_involutive (x : float) : (- - x = x)%float.
Proof.
  apply Prim2SF_inj. rewrite !FloatAxioms.opp_spec. apply SpecFacts.SFopp_involutive.
Qed.

Lemma mul_opp_l (x y : float) : (- x * y = - (x * y))%float.
Proof.
  apply Prim2SF_inj. rewrite FloatAxioms.opp_spec, !FloatAxioms.mul_spec, FloatAxioms.opp_spec.
  apply SpecFacts.SFmul_opp_l.
Qed.

Lemma mul_comm (x y : float) : (x * y = y * x)%float.
Proof. apply Prim2SF_inj. rewrite !FloatAxioms.mul_spec. apply SpecFacts.SFmul_comm. Qed.

Lemma mul_opp_r (x y : float) : (x * - y = - (x * y))%float.
Proof. by rewrite (mul_comm x), mul_opp_l, (mul_comm y). Qed.

Lemma mul_opp_opp (x y : float) : (- x * - y = x * y)%float.
Proof. by rewrite mul_opp_l, mul_opp_r, opp_involutive. Qed.

Lemma div_opp_l (x y : float) : (- x / y = - (x / y))%float.
Proof.
  apply Prim2SF_inj. rewrite FloatAxioms.opp_spec, !FloatAxioms.div_spec, FloatAxioms.opp_spec.
  apply SpecFacts.SFdiv_opp_l.
Qed.

Lemma sub_swap (x y : float) :
  (y - x = - (x - y))%float \/ (y - x = x - y)%float.
Proof.
  destruct (SpecFacts.SFsub_swap prec emax (Prim2SF x) (Prim2SF y)) as [H|H].
  - left. apply Prim2SF_inj. by rewrite FloatAxioms.opp_spec, !FloatAxioms.sub_spec.
  - right. apply Prim2SF_inj. by rewrite !FloatAxioms.sub_spec.
Qed.

Lemma is_finite_SF (x : float) :
  is_finite x = SFfinite (Prim2SF x).
Proof.
  unfold is_finite, is_nan, is_infinity.
  rewrite !FloatAxioms.eqb_spec, FloatAxioms.abs_spec, Prim2SF_infinity.
  destruct (Prim2SF x) as [s|s| |s m e]; try reflexivity.
  - by destruct s.
  - unfold SFeqb, SFabs, SFcompare.
    rewrite Z.compare_refl, Pos.compare_cont_refl. by destruct s.
Qed.

Lemma sub_diag (x : float) : is_finite x = true -> (x - x = 0)%float.
Proof.
  rewrite is_finite_SF. intros H. apply Prim2SF_inj.
  rewrite FloatAxioms.sub_spec. unfold SF64sub. by rewrite SpecFacts.SFsub_diag.
Qed.

Lemma sqrt_not_negative (x : float) : (sqrt x <? 0)%float = false.
Proof.
  rewrite FloatAxioms.ltb_spec, FloatAxioms.sqrt_spec, Prim2SF_zero.
  apply SpecFacts.SFsqrt_not_negative.
Qed.

Lemma mul_positive_not_negative (k t : float) (m : positive) (e : Z) :
  Prim2SF k = S754_finite false m e ->
  (t <? 0)%float = false -> (k * t <? 0)%float = false.
Proof.
  rewrite !FloatAxioms.ltb_spec, FloatAxioms.mul_spec, Prim2SF_zero. intros -> Ht.
  by apply SpecFacts.SFmul_not_negative.
Qed.

(** [>=] follows for a number that is neither negative nor [NaN]. *)
Lemma leb_zero_of_not_negative (d : float) :
  (d <? 0)%float = false -> is_nan d = false -> (0 <=? d)%float = true.
Proof.
  unfold is_nan. rewrite FloatAxioms.ltb_spec, FloatAxioms.leb_spec, FloatAxioms.eqb_spec, Prim2SF_zero.
  destruct (Prim2SF d) as [s|[|]| |[|] m e]; try reflexivity; discriminate.
Qed.

Lemma eqb_refl_of_not_nan (d : float) :
  is_nan d = false -> (d =? d)%float = true.
Proof. unfold is_nan. by destruct (d =? d)%float. Qed.

(** A finite number times zero, twice, added to zero. *)
Lemma zero_plus_finite_times_zero (f : float) :
  is_finite f = true -> (0 + f * 0 * 0 = 0)%float.
Proof.
  rewrite is_finite_SF. intros H. apply Prim2SF_inj.
  rewrite FloatAxioms.add_spec, !FloatAxioms.mul_spec, Prim2SF_zero.
  destruct (Prim2SF f) as [[|]|s| |[|] m e]; try discriminate; reflexivity.
Qed.

(** A number between [- b] and [b] is zero or has the exponent of [b] at
    most. *)
Lemma bounded_exponent (x b : float) (mb : positive) (eb : Z) :
  Prim2SF b = S754_finite false mb eb ->
  (- b <=? x)%float = true -> (x <=? b)%float = true ->
  SFexponent_le (Prim2SF x) eb.
Proof.
  rewrite !FloatAxioms.leb_spec, FloatAxioms.opp_spec. intros ->.
  destruct (Prim2SF x) as [s|[|]| |s m e]; try done.
  unfold SFleb, SFopp, SFcompare, SFexponent_le, negb. intros Hlo Hhi.
  destruct s.
  - destruct (Z.compare_spec eb e); lia || discriminate.
  - destruct (Z.compare_spec e eb); lia || discriminate.
Qed.

Lemma mul_exponent (x y : float) (bx bY b : Z) :
  SFexponent_le (Prim2SF x) bx -> SFexponent_le (Prim2SF y) bY ->
  212 + bx + bY <= b -> -968 <= b <= 971 ->
  SFexponent_le (Prim2SF (x * y)) b.
Proof.
  intros Hx Hy Hsum Hb. rewrite FloatAxioms.mul_spec.
  by apply (SpecFacts.SFmul_exponent _ _ bx bY); try apply Prim2SF_valid.
Qed.

Lemma div_exponent (x y : float) (my : positive) (ey bx b : Z) :
  Prim2SF y = S754_finite false my ey ->
  SFexponent_le (Prim2SF x) bx ->
  212 + bx - ey <= b -> -968 <= b <= 971 ->
  SFexponent_le (Prim2SF (x / y)) b.
Proof.
  intros Hy Hx Hsum Hb. rewrite FloatAxioms.div_spec.
  pose proof (Prim2SF_valid y) as Hvy. rewrite Hy in *.
  by apply (SpecFacts.SFdiv_exponent _ _ _ _ bx); try apply Prim2SF_valid.
Qed.

Lemma is_finite_of_exponent (x : float) (b : Z) :
  SFexponent_le (Prim2SF x) b -> is_finite x = true.
Proof. rewrite is_finite_SF. apply SpecFacts.SFexponent_le_finite. Qed.

(** The product of two numbers between -1 and 1 is finite. *)
Lemma mul_bounded_finite (x y : float) :
  (-1 <=? x)%float = true -> (x <=? 1)%float = true ->
  (-1 <=? y)%float = true -> (y <=? 1)%float = true ->
  is_finite (x * y) = true.
Proof.
  intros Hx1 Hx2 Hy1 Hy2.
  apply (is_finite_of_exponent _ 108).
  apply (mul_exponent _ _ (-52) (-52)); [| |lia|lia].
  - by apply (bounded_exponent x 1 4503599627370496).
  - by apply (bounded_exponent y 1 4503599627370496).
Qed.

Lemma is_finite_opp (x : float) : is_finite (- x) = is_finite x.
Proof.
  rewrite !is_finite_SF, FloatAxioms.opp_spec. by destruct (Prim2SF x).
Qed.

(** A number is finite when a finite multiple of it, divided by a finite
    number, is. *)
Lemma finite_of_scaled (x k j : float) (mk mj : positive) (ek ej : Z) :
  Prim2SF k = S754_finite false mk ek ->
  Prim2SF j = S754_finite false mj ej ->
  is_finite (x * k / j) = true -> is_finite x = true.
Proof.
  rewrite !is_finite_SF, FloatAxioms.div_spec, FloatAxioms.mul_spec.
  intros -> ->.
  destruct (Prim2SF x) as [s|s| |s m e]; [reflexivity| | |reflexivity];
    intros H; cbn in H; discriminate H.
Qed.

Lemma mul_nan_l (x : float) : (nan * x = nan)%float.
Proof. apply Prim2SF_inj. by rewrite FloatAxioms.mul_spec, Prim2SF_nan. Qed.

Lemma add_nan_r (x : float) : (x + nan = nan)%float.
Proof.
  apply Prim2SF_inj. rewrite FloatAxioms.add_spec, Prim2SF_nan.
  by destruct (Prim2SF x).
Qed.

(** Only the square root of [-0] is [-0]. *)
Lemma sqrt_neg_zero (a : float) :
  sqrt a = (-0)%float -> a = (-0)%float.
Proof.
  intros H. apply (f_equal Prim2SF) in H.
  rewrite FloatAxioms.sqrt_spec in H. apply Prim2SF_inj.
  change (Prim2SF (-0)) with (S754_zero true) in *.
  destruct (Prim2SF a) as [[|]|[|]| |[|] m e]; try done.
  exfalso. revert H. unfold SF64sqrt, SFsqrt.
  destruct (SFsqrt_core_binary prec emax (Z.pos m) e) as [[mz ez] lz].
  unfold binary_round_aux.
  destruct (shr_fexp prec emax mz ez lz) as [mrs' e'].
  destruct (shr_fexp prec emax _ e' loc_Exact) as [mrs'' e''].
  destruct (shr_m mrs''); [discriminate| |discriminate].
  by destruct (e'' <=? emax - prec).
Qed.

End FloatFacts.

(** ** [distanceTo] on a host that keeps the laws *)

Section DistanceFacts.

Variables Math_sin Math_cos Math_round : float -> float.
Variable Math_atan2 : float -> float -> float.
Hypothesis laws : MathLaws Math_sin Math_cos Math_round Math_atan2.

Lemma sin_half_opp (d : float) :
  Math_sin (- d * Math_PI / 180 / 2)
  = (- Math_sin (d * Math_PI / 180 / 2))%float.
Proof.
  rewrite FloatFacts.mul_opp_l, !FloatFacts.div_opp_l.
  apply (Math_sin_odd _ _ _ _ laws).
Qed.

(** The sine factors of a difference do not change when the difference
    is taken the other way round. *)
Lemma sin_factors_swap (x y c : float) :
  (Math_sin ((x - y) * Math_PI / 180 / 2)
   * Math_sin ((x - y) * Math_PI / 180 / 2)
   = Math_sin ((y - x) * Math_PI / 180 / 2)
     * Math_sin ((y - x) * Math_PI / 180 / 2))%float
  /\ (c * Math_sin ((x - y) * Math_PI / 180 / 2)
      * Math_sin ((x - y) * Math_PI / 180 / 2)
      = c * Math_sin ((y - x) * Math_PI / 180 / 2)
        * Math_sin ((y - x) * Math_PI / 180 / 2))%float.
Proof.
  destruct (FloatFacts.sub_swap y x) as [H|H]; rewrite H; [|done].
  rewrite sin_half_opp. split; [by rewrite FloatFacts.mul_opp_opp|].
  by rewrite (FloatFacts.mul_opp_r c), FloatFacts.mul_opp_opp.
Qed.

Lemma haversine_comm (cs1 cs2 : list float) :
  haversine Math_sin Math_cos Math_round Math_atan2 cs2 cs1
  = haversine Math_sin Math_cos Math_round Math_atan2 cs1 cs2.
Proof.
  unfold haversine. cbv zeta.
  destruct (sin_factors_swap (element cs1 1) (element cs2 1) 0) as [-> _].
  destruct (sin_factors_swap (element cs1 0) (element cs2 0)
              (Math_cos (element cs2 1 * Math_PI / 180)
               * Math_cos (element cs1 1 * Math_PI / 180))) as [_ ->].
  by rewrite (FloatFacts.mul_comm
                (Math_cos (element cs2 1 * Math_PI / 180))).
Qed.

(** From the haversine [a] to the metres, nothing goes below zero. *)
Lemma arc_not_negative (a : float) :
  (Math_round
     (6371000 * (2 * Math_atan2 (Math_sqrt a) (Math_sqrt (1 - a))))
   <? 0)%float = false.
Proof.
  apply (Math_round_sign _ _ _ _ laws).
  assert (Hcases : a = (-0)%float \/ Math_sqrt a <> (-0)%float).
  { destruct (FloatOps.Prim2SF a) as [[|]|s| |s m e] eqn:Ha;
      [left; apply FloatAxioms.Prim2SF_inj; by rewrite Ha|..];
      right; intros Hs; apply FloatFacts.sqrt_neg_zero in Hs; subst a;
      change (FloatOps.Prim2SF (-0)) with (SpecFloat.S754_zero true) in Ha;
      discriminate Ha. }
  destruct Hcases as [->|Hne].
  - change (Math_sqrt (-0)) with (-0)%float.
    change (1 - -0)%float with 1%float.
    change (Math_sqrt 1) with 1%float.
    by rewrite (Math_atan2_zero _ _ _ _ laws).
  - eapply FloatFacts.mul_positive_not_negative; [reflexivity|].
    eapply FloatFacts.mul_positive_not_negative; [reflexivity|].
    apply (Math_atan2_sign _ _ _ _ laws); [|exact Hne].
    apply FloatFacts.sqrt_not_negative.
Qed.

Lemma haversine_not_negative (cs1 cs2 : list float) :
  (haversine Math_sin Math_cos Math_round Math_atan2 cs1 cs2 <? 0)%float
  = false.
Proof. unfold haversine. cbv zeta. apply arc_not_negative. Qed.

(** Two arrays that start with the same finite longitude and the same
    latitude, finite in radians, are at distance [+0]. *)
Lemma haversine_same_point (lon lat : float) (rest1 rest2 : list float) :
  is_finite lon = true -> is_finite (radians lat) = true ->
  haversine Math_sin Math_cos Math_round Math_atan2
    (lon :: lat :: rest1) (lon :: lat :: rest2) = 0%float.
Proof.
  intros Hlon Hphi.
  assert (Hlat : is_finite lat = true).
  { unfold radians in Hphi.
    eapply FloatFacts.finite_of_scaled; [| |exact Hphi]; reflexivity. }
  destruct (Math_cos_range _ _ _ _ laws _ Hphi) as [Hlo Hhi].
  pose proof (FloatFacts.mul_bounded_finite _ _ Hlo Hhi Hlo Hhi) as Hcos.
  unfold radians in Hcos.
  unfold haversine, element. cbv zeta. cbn [nth].
  rewrite (FloatFacts.sub_diag lat Hlat), (FloatFacts.sub_diag lon Hlon).
  change (0 * Math_PI / 180 / 2)%float with 0%float.
  rewrite (Math_sin_zero _ _ _ _ laws).
  change (0 * 0)%float with 0%float.
  rewrite (FloatFacts.zero_plus_finite_times_zero _ Hcos).
  change (Math_sqrt 0) with 0%float.
  change (1 - 0)%float with 1%float.
  change (Math_sqrt 1) with 1%float.
  rewrite (Math_atan2_zero _ _ _ _ laws) by reflexivity.
  change (6371000 * (2 * 0))%float with 0%float.
  apply (Math_round_zero _ _ _ _ laws).
Qed.

End DistanceFacts.

(** Every latitude between -90 and 90 degrees is finite in radians. *)
Lemma radians_finite (lat : float) :
  (-90 <=? lat)%float = true -> (lat <=? 90)%float = true ->
  is_finite (radians lat) = true.
Proof.
  intros Hlo Hhi. unfold radians.
  apply (FloatFacts.is_finite_of_exponent _ 372).
  apply (FloatFacts.div_exponent _ 180 6333186975989760 (-45) 115);
    [reflexivity| |lia|lia].
  apply (FloatFacts.mul_exponent _ _ (-46) (-51)); [| |lia|lia].
  - by apply (FloatFacts.bounded_exponent lat 90 6333186975989760).
  - exact (Z.le_refl (-51)).
Qed.

(** A latitude of [1e308] degrees is infinite in radians; on a host that
    follows ECMA-262 at the infinities and at [NaN], the distance from
    such a point to itself is [NaN]. *)
Lemma haversine_overflow
    (Math_sin Math_cos Math_round : float -> float)
    (Math_atan2 : float -> float -> float) (lon : float) :
  Math_cos infinity = nan ->
  Math_atan2 nan nan = nan ->
  Math_round nan = nan ->
  haversine Math_sin Math_cos Math_round Math_atan2
    [lon; 0x1.1ccf385ebc8ap+1023%float] [lon; 0x1.1ccf385ebc8ap+1023%float]
  = nan.
Proof.
  intros Hcos Hatan2 Hround. unfold haversine, element. cbv zeta. cbn [nth].
  change (0x1.1ccf385ebc8ap+1023 * Math_PI / 180)%float with infinity.
  rewrite Hcos. change (nan * nan)%float with nan.
  rewrite !FloatFacts.mul_nan_l, FloatFacts.add_nan_r.
  change (Math_sqrt nan) with nan. change (1 - nan)%float with nan.
  change (Math_sqrt nan) with nan.
  rewrite Hatan2. change (6371000 * (2 * nan))%float with nan.
  exact Hround.
Qed.

(** The host of the examples keeps the laws. *)
Lemma Host_laws :
  MathLaws Host.Math_sin Host.Math_cos Host.Math_round Host.Math_atan2.
Proof.
  split.
  - reflexivity.
  - intros x. unfold Host.Math_sin. rewrite FloatFacts.is_finite_opp.
    by destruct (is_finite x).
  - intros x Hx. unfold Host.Math_cos. rewrite Hx. by split.
  - intros y _. reflexivity.
  - intros y x Hy _. unfold Host.Math_atan2. by destruct (is_nan x).
  - reflexivity.
  - intros x Hx. exact Hx.
Qed.




(** ** Mood freshness *)

(** C9: a mood entry is fresh iff its age is at most [expiryHours]; at the
    boundary it is fresh, one second later it is not. *)
Theorem isFresh_boundary (now moodTimestamp expiryHours : Z) :
  (isFresh now moodTimestamp expiryHours = true <->
   now - moodTimestamp <= expiryHours * msPerHour)
  /\ isFresh now (now - expiryHours * msPerHour) expiryHours = true
  /\ isFresh now (now - expiryHours * msPerHour - 1000) expiryHours = false.
Proof.
  unfold isFresh. split; [apply Z.leb_le|].
  split; [apply Z.leb_le | apply Z.leb_gt]; lia.
Qed.

(** ** Public profile *)

Lemma lookup_foldr_delete {Value : Type}
    (ks : list string) (m : gmap string Value) (k : string) :
  foldr delete m ks !! k = if decide (k ∈ ks) then None else m !! k.
Proof.
  induction ks as [|k' ks IH]; simpl.
  - destruct (decide (k ∈ [])) as [Hin|_]; [|reflexivity].
    by apply elem_of_nil in Hin.
  - rewrite lookup_delete, IH.
    destruct (decide (k' = k)) as [->|Hne].
    + rewrite decide_True; [reflexivity | apply list_elem_of_here].
    + destruct (decide (k ∈ ks)) as [Hin|Hout].
      * rewrite decide_True; [reflexivity | by apply list_elem_of_further].
      * rewrite decide_False; [reflexivity|].
        intros [Heq|Hin]%elem_of_cons; [by apply Hne | by apply Hout].
Qed.

(** C10: [getPublicProfile] removes exactly the seven sensitive
    properties from the plain object of the document and leaves every
    other property as it is. *)
Theorem getPublicProfile_frame {Value : Type}
    (toObject : User -> gmap string Value) (this : User) (k : string) :
  getPublicProfile toObject this !! k =
  if decide (k ∈ sensitive_fields) then None else toObject this !! k.
Proof.
  change (getPublicProfile toObject this)
    with (foldr delete (toObject this) (reverse sensitive_fields)).
  rewrite lookup_foldr_delete.
  destruct (decide (k ∈ reverse sensitive_fields)) as [Hin|Hout],
           (decide (k ∈ sensitive_fields)) as [Hin'|Hout'];
    try reflexivity.
  - exfalso. apply Hout'. by apply elem_of_reverse.
  - exfalso. apply Hout. by apply elem_of_reverse.
Qed.


(** * Further properties *)

(** ** Gender compatibility, continued *)

(** X1: two users who both list ['tous'] are compatible, whatever their
    genders. *)
Theorem isGenderCompatibleWith_tous (a b : User) :
  "tous"%string ∈ interestedIn (genderIdentity a) ->
  "tous"%string ∈ interestedIn (genderIdentity b) ->
  isGenderCompatibleWith a b = true.
Proof.
  intros Ha Hb. unfold isGenderCompatibleWith. cbv zeta.
  apply includes_true in Ha, Hb. rewrite Ha, Hb.
  by rewrite !orb_true_r.
Qed.

Lemma isGenderCompatibleWith_tous_witness :
  isGenderCompatibleWith
    (mkUser 11 None (mkGenderIdentity "autre" ["tous"%string]) "zen"
            default_location true false 0 Fixture.defaults)
    (mkUser 12 None (mkGenderIdentity "prefere_ne_pas_dire"
                       ["femme"; "tous"]%string) "zen"
            default_location true false 0 Fixture.defaults) = true.
Proof.
  apply isGenderCompatibleWith_tous; simpl.
  - apply list_elem_of_here.
  - apply list_elem_of_further, list_elem_of_here.
Defined.

(** X2: the gender ['prefere_ne_pas_dire'] is not among the values that
    [interestedIn] may hold, so a user who declares it is compatible only
    with users who list ['tous']. *)
Theorem isGenderCompatibleWith_prefere_ne_pas_dire (a b : User) :
  myGender (genderIdentity a) = "prefere_ne_pas_dire"%string ->
  interestedIn (genderIdentity b) ⊆ interestedIn_enum ->
  isGenderCompatibleWith a b = true ->
  "tous"%string ∈ interestedIn (genderIdentity b).
Proof.
  intros Hg Henum Hc. unfold isGenderCompatibleWith in Hc. cbv zeta in Hc.
  apply andb_true_iff in Hc as [_ Hb].
  apply orb_true_iff in Hb as [Hb|Hb]; apply includes_true in Hb; [|exact Hb].
  rewrite Hg in Hb. apply Henum in Hb. exfalso.
  unfold interestedIn_enum in Hb.
  repeat (apply elem_of_cons in Hb as [Hb|Hb]; [discriminate Hb|]).
  by apply elem_of_nil in Hb.
Qed.

Lemma isGenderCompatibleWith_prefere_ne_pas_dire_witness :
  "tous"%string ∈ ["femme"; "tous"]%string.
Proof.
  apply (isGenderCompatibleWith_prefere_ne_pas_dire
           (mkUser 12 None (mkGenderIdentity "prefere_ne_pas_dire"
                              ["femme"; "tous"]%string) "zen"
                   default_location true false 0 Fixture.defaults)
           (mkUser 13 None (mkGenderIdentity "femme"
                              ["femme"; "tous"]%string) "zen"
                   default_location true false 0 Fixture.defaults)).
  - reflexivity.
  - simpl. unfold interestedIn_enum. intros x Hx.
    apply elem_of_cons in Hx as [->|Hx]; [set_solver|].
    apply elem_of_cons in Hx as [->|Hx]; [set_solver|].
    by apply elem_of_nil in Hx.
  - reflexivity.
Defined.

(** ** The age validator *)

(** X3: the validator of [dateOfBirth] accepts a date exactly when the
    [age] virtual of the document is a number from 18 to 100. *)
Theorem dateOfBirth_validator_age (now : Z) (this : User) (date : Z) :
  dateOfBirth this = Some date ->
  dateOfBirth_validator now date = true <->
  exists a, age now this = Some a /\ 18 <= a <= 100.
Proof.
  intros Hd. unfold dateOfBirth_validator, age. rewrite Hd. cbv zeta.
  rewrite andb_true_iff, !Z.leb_le. split.
  - intros H. eexists. split; [reflexivity | exact H].
  - intros (a & [= <-] & H). exact H.
Qed.

Lemma dateOfBirth_validator_age_witness :
  dateOfBirth_validator Fixture.now 946684800000 = true <->
  exists a, age Fixture.now Fixture.partner = Some a /\ 18 <= a <= 100.
Proof.
  apply (dateOfBirth_validator_age Fixture.now Fixture.partner 946684800000).
  reflexivity.
Defined.

(** X4: the age of a document never decreases as time passes, so a date
    of birth that passed the validator keeps an age of at least 18; the
    upper bound of 100 is not kept. *)
Theorem age_after_validation (now later : Z) (this : User) (date : Z) :
  dateOfBirth this = Some date ->
  dateOfBirth_validator now date = true ->
  now <= later ->
  exists a a',
    age now this = Some a /\ age later this = Some a' /\ 18 <= a <= a'.
Proof.
  intros Hd Hv Hle. unfold dateOfBirth_validator in Hv. cbv zeta in Hv.
  apply andb_true_iff in Hv as [Hv _]. apply Z.leb_le in Hv.
  unfold age. rewrite Hd. do 2 eexists. split; [reflexivity|].
  split; [reflexivity|]. split; [exact Hv|].
  apply Z.div_le_mono; [reflexivity | lia].
Qed.

Lemma age_after_validation_witness :
  exists a a',
    age Fixture.now Fixture.partner = Some a
    /\ age (Fixture.now + 80 * msPerAgeYear) Fixture.partner = Some a'
    /\ 18 <= a <= a'.
Proof.
  apply (age_after_validation Fixture.now (Fixture.now + 80 * msPerAgeYear)
           Fixture.partner 946684800000).
  - reflexivity.
  - reflexivity.
  - unfold msPerAgeYear. lia.
Defined.

(** ** [findCompatibleUsers], continued *)

Section MoreStoreFacts.

Variable geoNear : Location -> Z -> Location -> bool.

Lemma find_submseteq (store : list User) (q : Query) :
  find geoNear store q ⊆+ store.
Proof.
  unfold find, applyLimit.
  assert (Hs : merge_sort lastSeenDesc (List.filter (matchesQuery geoNear q) store)
               ⊆+ store).
  { rewrite merge_sort_Permutation. apply sublist_submseteq.
    induction store as [|d store IH]; simpl; [constructor|].
    destruct (matchesQuery geoNear q d); by constructor. }
  destruct (q_limit q =? 0); [exact Hs|].
  etrans; [apply submseteq_take | exact Hs].
Qed.

Lemma find_length (store : list User) (q : Query) :
  0 < q_limit q -> (Z.of_nat (length (find geoNear store q)) <= q_limit q)%Z.
Proof.
  intros Hl. unfold find, applyLimit.
  destruct (Z.eqb_spec (q_limit q) 0) as [Heq|_]; [lia|].
  rewrite length_take. lia.
Qed.

(** When the matching documents are no more than the limit, [find]
    returns them all. *)
Lemma elem_of_find_within_limit (store : list User) (q : Query) (c : User) :
  (Z.of_nat (length (List.filter (matchesQuery geoNear q) store))
   <= Z.abs (q_limit q))%Z ->
  c ∈ find geoNear store q <->
  c ∈ store /\ matchesQuery geoNear q c = true.
Proof.
  intros Hlen. split; [apply elem_of_find|].
  intros [Hin Hm]. unfold find, applyLimit.
  assert (Hc : c ∈ merge_sort lastSeenDesc
                 (List.filter (matchesQuery geoNear q) store)).
  { rewrite merge_sort_Permutation.
    apply list_elem_of_In, filter_In. split; [by apply list_elem_of_In | done]. }
  destruct (q_limit q =? 0); [exact Hc|].
  rewrite take_ge; [exact Hc|].
  rewrite merge_sort_Permutation. lia.
Qed.

Lemma StronglySorted_lookup_le (l : list User) (i j : nat) (a b : User) :
  StronglySorted lastSeenDesc l ->
  (i < j)%nat -> l !! i = Some a -> l !! j = Some b ->
  lastSeen b <= lastSeen a.
Proof.
  intros Hs. revert i j. induction Hs as [|x l Hs IH Hall]; intros i j Hij Hi Hj.
  - by rewrite lookup_nil in Hi.
  - destruct j as [|j]; [lia|]. simpl in Hj. destruct i as [|i].
    + simpl in Hi. injection Hi as <-.
      rewrite List.Forall_forall in Hall. apply Hall.
      apply list_elem_of_In. by eapply list_elem_of_lookup_2.
    + simpl in Hi. apply (IH i j); [lia | done | done].
Qed.

Lemma find_strongly_sorted (store : list User) (q : Query) :
  StronglySorted lastSeenDesc (find geoNear store q).
Proof.
  assert (Htrans : Transitive lastSeenDesc).
  { intros a b c. unfold lastSeenDesc. lia. }
  apply Sorted_StronglySorted; [exact Htrans|]. apply find_sorted.
Qed.

End MoreStoreFacts.

Lemma query_limit
    (LocalTZA : Z -> bool -> Z) (now : Z) (user : User) (options : Options) :
  q_limit (compatibleUsersQuery LocalTZA now user options)
  = resolvedLimit options.
Proof. reflexivity. Qed.

(** X5: the candidates come most recently seen first. *)
Theorem findCompatibleUsers_most_recent_first
    (LocalTZA : Z -> bool -> Z) (geoNear : Location -> Z -> Location -> bool)
    (store : list User) (now : Z) (user : User) (options : Options)
    (i j : nat) (a b : User) :
  let docs :=
    candidates (findCompatibleUsers LocalTZA geoNear store now user options) in
  (i < j)%nat -> docs !! i = Some a -> docs !! j = Some b ->
  lastSeen b <= lastSeen a.
Proof.
  intros docs. apply StronglySorted_lookup_le.
  unfold docs, findCompatibleUsers, candidates. apply find_strongly_sorted.
Qed.

Lemma findCompatibleUsers_most_recent_first_witness :
  lastSeen Fixture.partner <= lastSeen Fixture.rival.
Proof.
  apply (findCompatibleUsers_most_recent_first JsDate.utcHost
           Fixture.onQueryPoint Fixture.store Fixture.now Fixture.requester
           noOptions 0 1 Fixture.rival Fixture.partner).
  - lia.
  - vm_compute. reflexivity.
  - vm_compute. reflexivity.
Defined.

(** X6: a positive [limit] caps the number of candidates, and without a
    [limit] option there are at most 50. *)
Theorem findCompatibleUsers_capped
    (LocalTZA : Z -> bool -> Z) (geoNear : Location -> Z -> Location -> bool)
    (store : list User) (now : Z) (user : User) (options : Options) :
  let docs :=
    candidates (findCompatibleUsers LocalTZA geoNear store now user options) in
  (forall n, limit options = Some n -> 0 < n -> Z.of_nat (length docs) <= n)
  /\ (limit options = None -> Z.of_nat (length docs) <= 50).
Proof.
  intros docs. unfold docs, findCompatibleUsers, candidates.
  pose proof (find_length geoNear store
                (compatibleUsersQuery LocalTZA now user options)) as Hlen.
  rewrite query_limit in Hlen. unfold resolvedLimit in Hlen. split.
  - intros n Hn Hpos. rewrite Hn in Hlen. by apply Hlen.
  - intros Hn. rewrite Hn in Hlen. by apply Hlen.
Qed.

(** X7: with a [mood] option that is not the empty string, every
    candidate is in that mood. *)
Theorem findCompatibleUsers_mood
    (LocalTZA : Z -> bool -> Z) (geoNear : Location -> Z -> Location -> bool)
    (store : list User) (now : Z) (user : User) (options : Options)
    (m : string) (c : User) :
  mood options = Some m -> m <> ""%string ->
  c ∈ candidates (findCompatibleUsers LocalTZA geoNear store now user options) ->
  currentMood c = m.
Proof.
  intros Hm Hne Hc.
  apply candidates_Eligible in Hc as [_ [_ _ _ _ _ Hmood]].
  by apply Hmood.
Qed.

Lemma fixture_search_zen :
  Fixture.search Fixture.requester Fixture2.zen =
  Js.Returns [Fixture.rival; Fixture.partner; Fixture.silent].
Proof. vm_compute. reflexivity. Qed.

Lemma findCompatibleUsers_mood_witness :
  currentMood Fixture.partner = "zen"%string.
Proof.
  apply (findCompatibleUsers_mood JsDate.utcHost Fixture.onQueryPoint
           Fixture.store Fixture.now Fixture.requester Fixture2.zen
           "zen" Fixture.partner).
  - reflexivity.
  - discriminate.
  - change (Fixture.partner
            ∈ candidates (Fixture.search Fixture.requester Fixture2.zen)).
    rewrite fixture_search_zen.
    apply list_elem_of_further, list_elem_of_here.
Defined.

(** X8: the empty string as [mood] filters nothing: the call gives what
    it gives without a [mood]. *)
Theorem findCompatibleUsers_empty_mood
    (LocalTZA : Z -> bool -> Z) (geoNear : Location -> Z -> Location -> bool)
    (store : list User) (now : Z) (user : User) (options : Options) :
  findCompatibleUsers LocalTZA geoNear store now user
    (mkOptions (maxDistance options) (ageMin options) (ageMax options)
               (Some ""%string) (limit options))
  = findCompatibleUsers LocalTZA geoNear store now user
      (mkOptions (maxDistance options) (ageMin options) (ageMax options)
                 None (limit options)).
Proof.
  unfold findCompatibleUsers, compatibleUsersQuery, minBirthDate,
    maxBirthDate, resolvedMaxDistance, resolvedAgeMin, resolvedAgeMax,
    resolvedLimit.
  cbn [maxDistance ageMin ageMax mood limit Js.truthy String.eqb negb].
  reflexivity.
Qed.

(** X9: the requester enters the query through [_id], [location] and
    [preferences] only: a requester who is banned or inactive gets the
    candidates of any other document with these three. *)
Theorem findCompatibleUsers_requester_fields
    (LocalTZA : Z -> bool -> Z) (geoNear : Location -> Z -> Location -> bool)
    (store : list User) (now : Z) (user user' : User) (options : Options) :
  _id user = _id user' ->
  location user = location user' ->
  preferences user = preferences user' ->
  findCompatibleUsers LocalTZA geoNear store now user options
  = findCompatibleUsers LocalTZA geoNear store now user' options.
Proof.
  intros Hid Hloc Hpref.
  unfold findCompatibleUsers, compatibleUsersQuery, minBirthDate,
    maxBirthDate, resolvedMaxDistance, resolvedAgeMin, resolvedAgeMax.
  rewrite Hid, Hloc, Hpref. reflexivity.
Qed.

Lemma findCompatibleUsers_requester_fields_witness :
  Fixture.search
    (mkUser 1 None Fixture.undeclared "zen" default_location false true 0
            Fixture.defaults) noOptions
  = Fixture.search Fixture.requester noOptions.
Proof.
  apply (findCompatibleUsers_requester_fields JsDate.utcHost
           Fixture.onQueryPoint Fixture.store Fixture.now); reflexivity.
Defined.

(** X10: the candidates are documents of the collection, each at most as
    often as the collection holds it. *)
Theorem findCompatibleUsers_submseteq
    (LocalTZA : Z -> bool -> Z) (geoNear : Location -> Z -> Location -> bool)
    (store : list User) (now : Z) (user : User) (options : Options) :
  candidates (findCompatibleUsers LocalTZA geoNear store now user options)
  ⊆+ store.
Proof.
  unfold findCompatibleUsers, candidates. apply find_submseteq.
Qed.

Lemma hasMood_of_mood
    (LocalTZA : Z -> bool -> Z) (now : Z) (user : User) (options : Options)
    (c : User) :
  (forall m, mood options = Some m -> m <> ""%string -> currentMood c = m) ->
  hasMood (compatibleUsersQuery LocalTZA now user options) c = true.
Proof.
  intros Hmood. unfold hasMood. rewrite query_currentMood.
  destruct (mood options) as [m|]; simpl; [|reflexivity].
  destruct (String.eqb_spec m "") as [Heq|Hne]; simpl; [reflexivity|].
  apply String.eqb_eq. by apply Hmood.
Qed.

Lemma Eligible_matchesQuery
    (LocalTZA : Z -> bool -> Z) (geoNear : Location -> Z -> Location -> bool)
    (now : Z) (user : User) (options : Options) (c : User) :
  Eligible LocalTZA geoNear now user options c ->
  matchesQuery geoNear (compatibleUsersQuery LocalTZA now user options) c
  = true.
Proof.
  intros [Hid Hact Hban Hnear Hdob Hmood].
  apply matchesQuery_true. rewrite inDateRange_true.
  rewrite query_id_ne, query_isActive, query_isBanned, query_near_geometry,
    query_near_maxDistance, query_dateOfBirth_gte, query_dateOfBirth_lte.
  repeat (split; [assumption|]).
  by apply hasMood_of_mood.
Qed.

(** X11: when the collection holds no more documents than the limit,
    the candidates are exactly its documents that pass the six tests of
    the query: another id, active, not banned, near, born within the
    bounds, in the mood asked for. *)
Theorem findCompatibleUsers_complete
    (LocalTZA : Z -> bool -> Z) (geoNear : Location -> Z -> Location -> bool)
    (store : list User) (now : Z) (user : User) (options : Options)
    (c : User) :
  Z.of_nat (length store) <= Z.abs (resolvedLimit options) ->
  c ∈ candidates (findCompatibleUsers LocalTZA geoNear store now user options)
  <-> c ∈ store /\ Eligible LocalTZA geoNear now user options c.
Proof.
  intros Hlen. split; [apply candidates_Eligible|].
  intros [Hin He]. unfold findCompatibleUsers, candidates.
  apply elem_of_find_within_limit.
  - rewrite query_limit.
    pose proof (filter_length
                  (matchesQuery geoNear
                     (compatibleUsersQuery LocalTZA now user options)) store).
    lia.
  - split; [exact Hin | by apply Eligible_matchesQuery].
Qed.

Lemma findCompatibleUsers_complete_witness :
  Fixture.partner ∈ candidates (Fixture.search Fixture.requester noOptions)
  <-> Fixture.partner ∈ Fixture.store
      /\ Eligible JsDate.utcHost Fixture.onQueryPoint Fixture.now
           Fixture.requester noOptions Fixture.partner.
Proof.
  apply (findCompatibleUsers_complete JsDate.utcHost Fixture.onQueryPoint
           Fixture.store Fixture.now Fixture.requester noOptions
           Fixture.partner).
  vm_compute. discriminate.
Defined.

(** X12: a stored preference of 0 counts as unset: with the radius and
    both ages stored as 0 the search is that of the defaults 10000, 18 and
    35.  An option given as 0 is used as it is. *)
Theorem findCompatibleUsers_zero_preferences
    (LocalTZA : Z -> bool -> Z) (geoNear : Location -> Z -> Location -> bool)
    (store : list User) (now : Z) (user : User) (options : Options) :
  let unset :=
    mkUser (_id user) (dateOfBirth user) (genderIdentity user)
           (currentMood user) (location user) (isActive user)
           (isBanned user) (lastSeen user)
           (mkPreferences 0 (mkAgeRange 0 0)) in
  let defaulted :=
    mkUser (_id user) (dateOfBirth user) (genderIdentity user)
           (currentMood user) (location user) (isActive user)
           (isBanned user) (lastSeen user)
           (mkPreferences 10000 (mkAgeRange 18 35)) in
  findCompatibleUsers LocalTZA geoNear store now unset options
  = findCompatibleUsers LocalTZA geoNear store now defaulted options
  /\ resolvedMaxDistance user
       (mkOptions (Some 0) (Some 0) (Some 0) (mood options) (limit options))
     = 0
  /\ resolvedAgeMin user
       (mkOptions (Some 0) (Some 0) (Some 0) (mood options) (limit options))
     = 0
  /\ resolvedAgeMax user
       (mkOptions (Some 0) (Some 0) (Some 0) (mood options) (limit options))
     = 0.
Proof.
  intros unset defaulted. split; [|by repeat split].
  unfold findCompatibleUsers, compatibleUsersQuery, minBirthDate,
    maxBirthDate, resolvedMaxDistance, resolvedAgeMin, resolvedAgeMax.
  subst unset defaulted.
  cbn [_id location preferences searchRadius ageRange min max
       Js.or_default Z.eqb].
  reflexivity.
Qed.

(** ** Calendar arithmetic, continued *)

Module DateFacts2.
Import JsDate.

Lemma MakeDay_year_lt (y1 y2 month date : Z) :
  y1 < y2 -> MakeDay y1 month date + 364 <= MakeDay y2 month date.
Proof.
  intros Hy. unfold MakeDay.
  set (q := month / 12). set (mn := month mod 12).
  pose proof (DateFacts.DayFromYear_succ (y1 + q)) as Hsucc.
  pose proof (DateFacts.DayFromYear_mono (y1 + q + 1) (y2 + q)) as Hmono.
  assert (Hd : -1 <= daysBeforeMonth (if isLeapYear (y2 + q) then 1 else 0) mn
                     - daysBeforeMonth (if isLeapYear (y1 + q) then 1 else 0) mn
                  <= 1).
  { apply DateFacts.daysBeforeMonth_leap;
      destruct (isLeapYear (y1 + q)), (isLeapYear (y2 + q)); lia. }
  unfold DaysInYear in Hsucc. destruct (isLeapYear (y1 + q)); lia.
Qed.

(** A later year gives a later local midnight, on a host whose offset
    from UTC stays within a day. *)
Lemma newDate_year_lt (LocalTZA : Z -> bool -> Z) (y1 y2 month date : Z) :
  (forall t b, - msPerDay <= LocalTZA t b <= msPerDay) ->
  100 <= y1 -> y1 < y2 ->
  newDate LocalTZA y1 month date < newDate LocalTZA y2 month date.
Proof.
  intros Htz H100 Hy. unfold newDate, UTC, MakeDate, MakeFullYear.
  replace ((0 <=? y1) && (y1 <=? 99)) with false
    by (symmetry; apply andb_false_iff; right; apply Z.leb_gt; lia).
  replace ((0 <=? y2) && (y2 <=? 99)) with false
    by (symmetry; apply andb_false_iff; right; apply Z.leb_gt; lia).
  pose proof (MakeDay_year_lt y1 y2 month date Hy) as Hd.
  set (d1 := MakeDay y1 month date) in *.
  set (d2 := MakeDay y2 month date) in *.
  pose proof (Htz (d1 * msPerDay + 0) false) as H1.
  pose proof (Htz (d2 * msPerDay + 0) false) as H2.
  unfold msPerDay in *. lia.
Qed.

(** The local midnight that began the same calendar day [a] years ago
    lies less than [a] years of 365.25 days and a week back. *)
Lemma newDate_years_ago_week (LocalTZA : Z -> bool -> Z) (now a : Z) :
  (forall t b, - msPerDay <= LocalTZA t b <= msPerDay) ->
  0 <= a <= 1000 ->
  100 <= getFullYear LocalTZA now - a ->
  now - newDate LocalTZA (getFullYear LocalTZA now - a)
          (getMonth LocalTZA now) (getDate LocalTZA now)
  < a * msPerAgeYear + 7 * msPerDay.
Proof.
  intros Htz Ha Hy.
  unfold newDate, getFullYear, getMonth, getDate, UTC, MakeDate in *.
  unfold MakeFullYear.
  replace ((0 <=? YearFromTime (LocalTime LocalTZA now) - a)
           && (YearFromTime (LocalTime LocalTZA now) - a <=? 99)) with false
    by (symmetry; apply andb_false_iff; right; apply Z.leb_gt; lia).
  pose proof (DateFacts.MakeDay_span (LocalTime LocalTZA now) a Ha) as Hs.
  set (md := MakeDay _ _ _) in *.
  pose proof (Htz (md * msPerDay + 0) false) as Ht2.
  pose proof (Htz now true) as Ht1.
  unfold Day, LocalTime in *.
  pose proof (Z.div_mod (now + LocalTZA now true) msPerDay) as Hdm.
  pose proof (Z.mod_pos_bound (now + LocalTZA now true) msPerDay) as Hmb.
  unfold msPerDay, msPerAgeYear in *. lia.
Qed.

End DateFacts2.

Lemma birthDates_inverted
    (LocalTZA : Z -> bool -> Z) (now : Z) (user : User) (options : Options) :
  (forall t b, - JsDate.msPerDay <= LocalTZA t b <= JsDate.msPerDay) ->
  100 <= JsDate.getFullYear LocalTZA now - resolvedAgeMin user options ->
  resolvedAgeMax user options < resolvedAgeMin user options ->
  maxBirthDate LocalTZA now user options
  < minBirthDate LocalTZA now user options.
Proof.
  intros Htz H100 Hinv. unfold maxBirthDate, minBirthDate.
  apply DateFacts2.newDate_year_lt; [exact Htz | exact H100 | lia].
Qed.

Lemma minBirthDate_week
    (LocalTZA : Z -> bool -> Z) (now : Z) (user : User) (options : Options) :
  (forall t b, - JsDate.msPerDay <= LocalTZA t b <= JsDate.msPerDay) ->
  0 <= resolvedAgeMax user options <= 1000 ->
  100 <= JsDate.getFullYear LocalTZA now - resolvedAgeMax user options ->
  now - minBirthDate LocalTZA now user options
  < resolvedAgeMax user options * msPerAgeYear + 7 * JsDate.msPerDay.
Proof.
  intros Htz Ha Hy. unfold minBirthDate.
  by apply DateFacts2.newDate_years_ago_week.
Qed.

(** X13: when [ageMin] is greater than [ageMax] the call does not fail:
    it returns no candidate. *)
Theorem findCompatibleUsers_inverted_range
    (LocalTZA : Z -> bool -> Z) (geoNear : Location -> Z -> Location -> bool)
    (store : list User) (now : Z) (user : User) (options : Options) :
  (forall t b, - JsDate.msPerDay <= LocalTZA t b <= JsDate.msPerDay) ->
  100 <= JsDate.getFullYear LocalTZA now - resolvedAgeMin user options ->
  resolvedAgeMax user options < resolvedAgeMin user options ->
  findCompatibleUsers LocalTZA geoNear store now user options
  = Js.Returns [].
Proof.
  intros Htz H100 Hinv.
  pose proof (birthDates_inverted LocalTZA now user options Htz H100 Hinv)
    as Hlt.
  unfold findCompatibleUsers. f_equal.
  destruct (find geoNear store (compatibleUsersQuery LocalTZA now user options))
    as [|c docs] eqn:Hfind; [reflexivity|].
  exfalso.
  assert (Hc : c ∈ candidates (findCompatibleUsers LocalTZA geoNear store now
                                 user options)).
  { unfold findCompatibleUsers, candidates. rewrite Hfind.
    apply list_elem_of_here. }
  apply candidates_Eligible in Hc as [_ [_ _ _ _ (dob & _ & Hrange) _]]. lia.
Qed.

Lemma findCompatibleUsers_inverted_range_witness :
  Fixture.search Fixture.requester Fixture2.inverted = Js.Returns [].
Proof.
  apply (findCompatibleUsers_inverted_range JsDate.utcHost
           Fixture.onQueryPoint Fixture.store Fixture.now Fixture.requester
           Fixture2.inverted).
  - intros t b. unfold JsDate.utcHost, JsDate.msPerDay. lia.
  - vm_compute. discriminate.
  - vm_compute. reflexivity.
Defined.

(** X14: the upper age bound all but excludes [ageMax] itself: every
    candidate was born less than [ageMax] years of 365.25 days and seven
    days ago, so of the users aged [ageMax] only those within a week of
    their birthday are returned. *)
Theorem findCompatibleUsers_ageMax_week
    (LocalTZA : Z -> bool -> Z) (geoNear : Location -> Z -> Location -> bool)
    (store : list User) (now : Z) (user : User) (options : Options)
    (c : User) :
  (forall t b, - JsDate.msPerDay <= LocalTZA t b <= JsDate.msPerDay) ->
  0 <= resolvedAgeMax user options <= 1000 ->
  100 <= JsDate.getFullYear LocalTZA now - resolvedAgeMax user options ->
  c ∈ candidates (findCompatibleUsers LocalTZA geoNear store now user options) ->
  exists dob,
    dateOfBirth c = Some dob
    /\ now - dob
       < resolvedAgeMax user options * msPerAgeYear + 7 * JsDate.msPerDay.
Proof.
  intros Htz Ha Hy Hc.
  apply candidates_Eligible in Hc as [_ [_ _ _ _ (dob & Hdob & Hrange) _]].
  exists dob. split; [exact Hdob|].
  pose proof (minBirthDate_week LocalTZA now user options Htz Ha Hy) as Hw.
  lia.
Qed.

Lemma findCompatibleUsers_ageMax_week_witness :
  exists dob,
    dateOfBirth Fixture.partner = Some dob
    /\ Fixture.now - dob
       < resolvedAgeMax Fixture.requester noOptions * msPerAgeYear
         + 7 * JsDate.msPerDay.
Proof.
  apply (findCompatibleUsers_ageMax_week JsDate.utcHost Fixture.onQueryPoint
           Fixture.store Fixture.now Fixture.requester noOptions
           Fixture.partner).
  - intros t b. unfold JsDate.utcHost, JsDate.msPerDay. lia.
  - vm_compute. split; discriminate.
  - vm_compute. discriminate.
  - exact fixture_partner.
Defined.

(** ** Photos *)

Module PhotoFacts.
Import Photos.

Lemma find_isMain_None (photos : list Photo) :
  List.find isMain photos = None <-> List.filter isMain photos = [].
Proof.
  induction photos as [|p photos IH]; simpl; [done|].
  destruct (isMain p); [split; discriminate | exact IH].
Qed.

Lemma imap_setMain (first : Photo) (others : list Photo) :
  imap (fun index photo => setMain (index =? 0)%nat photo) (first :: others)
  = setMain true first :: map (setMain false) others.
Proof.
  rewrite imap_cons. simpl. f_equal.
  transitivity (imap (fun _ => setMain false) others).
  - apply imap_ext. intros i x _. reflexivity.
  - apply imap_const.
Qed.

Lemma filter_isMain_setMain_false (photos : list Photo) :
  List.filter isMain (map (setMain false) photos) = [].
Proof. induction photos as [|p photos IH]; simpl; done. Qed.

(** What the hook makes of a list of photos. *)
Lemma validateMainPhoto_cases (photos : list Photo) :
  validateMainPhoto photos = photos /\ length (List.filter isMain photos) = 1%nat
  \/ photos = [] /\ validateMainPhoto photos = []
  \/ exists first others,
       photos = first :: others
       /\ length (List.filter isMain photos) <> 1%nat
       /\ validateMainPhoto photos
          = setMain true first
            :: (if (length (List.filter isMain photos) =? 0)%nat
                then others else map (setMain false) others).
Proof.
  destruct photos as [|first others]; [right; left; done|].
  unfold validateMainPhoto. cbv zeta.
  destruct (Nat.eqb_spec (length (List.filter isMain (first :: others))) 0)
    as [H0|H0].
  - right; right. exists first, others. split; [done|]. split; [lia | done].
  - destruct (Nat.ltb_spec 1 (length (List.filter isMain (first :: others))))
      as [H1|H1].
    + right; right. exists first, others. split; [done|]. split; [lia|].
      apply imap_setMain.
    + left. split; [done | lia].
Qed.

End PhotoFacts.

Lemma validateMainPhoto_count (photos : list Photos.Photo) :
  photos <> [] ->
  length (List.filter Photos.isMain (Photos.validateMainPhoto photos)) = 1%nat.
Proof.
  intros Hne.
  destruct (PhotoFacts.validateMainPhoto_cases photos)
    as [[-> H1] | [[Hnil _] | (first & others & -> & Hn & ->)]];
    [exact H1 | done |].
  change (S (length (List.filter Photos.isMain
                       (if (length (List.filter Photos.isMain
                                      (first :: others)) =? 0)%nat
                        then others
                        else map (Photos.setMain false) others))) = 1%nat).
  f_equal.
  destruct (Nat.eqb_spec
              (length (List.filter Photos.isMain (first :: others))) 0)
    as [H0|H0].
  - simpl in H0. destruct (Photos.isMain first); [discriminate H0|].
    exact H0.
  - by rewrite PhotoFacts.filter_isMain_setMain_false.
Qed.

(** X15: after the hook a document with photos has exactly one main
    photo. *)
Theorem validateMainPhoto_one_main (photos : list Photos.Photo) :
  photos <> [] ->
  length (List.filter Photos.isMain (Photos.validateMainPhoto photos)) = 1%nat.
Proof. apply validateMainPhoto_count. Qed.

Lemma validateMainPhoto_one_main_witness :
  length (List.filter Photos.isMain
            (Photos.validateMainPhoto
               [Fixture2.portrait; Fixture2.beach; Fixture2.party])) = 1%nat.
Proof. apply validateMainPhoto_one_main. discriminate. Defined.

(** X16: the hook changes nothing but [isMain] flags: the photos keep
    their number, order, urls, ids and upload dates; and running it again
    changes nothing more. *)
Theorem validateMainPhoto_frame (photos : list Photos.Photo) :
  map (fun p => (Photos.url p, Photos.cloudinaryId p, Photos.uploadedAt p))
      (Photos.validateMainPhoto photos)
  = map (fun p => (Photos.url p, Photos.cloudinaryId p, Photos.uploadedAt p))
        photos
  /\ Photos.validateMainPhoto (Photos.validateMainPhoto photos)
     = Photos.validateMainPhoto photos.
Proof.
  split.
  - destruct (PhotoFacts.validateMainPhoto_cases photos)
      as [[-> _] | [[-> _] | (first & others & -> & _ & ->)]];
      [done | done |].
    simpl. f_equal.
    destruct (_ =? _)%nat; [done|].
    rewrite map_map. by apply map_ext.
  - destruct photos as [|first others]; [done|].
    pose proof (validateMainPhoto_count (first :: others)) as H1.
    destruct (PhotoFacts.validateMainPhoto_cases
                (Photos.validateMainPhoto (first :: others)))
      as [[Heq _] | [[Hnil _] | (f & o & _ & Hn & _)]].
    + exact Heq.
    + exfalso.
      assert (Hlen : length (List.filter Photos.isMain
                               (Photos.validateMainPhoto (first :: others)))
                     = 1%nat) by (apply H1; discriminate).
      rewrite Hnil in Hlen. discriminate Hlen.
    + exfalso. apply Hn. apply H1. discriminate.
Qed.

(** X17: when the photos hold no main photo or several, the hook makes
    the photo at index 0 the main one, also when that photo was not among
    the main ones; with exactly one main photo it changes nothing. *)
Theorem validateMainPhoto_first (first : Photos.Photo)
    (others : list Photos.Photo) :
  let photos := first :: others in
  (length (List.filter Photos.isMain photos) = 1%nat ->
   Photos.validateMainPhoto photos = photos)
  /\ (length (List.filter Photos.isMain photos) <> 1%nat ->
      Photos.mainPhoto (Photos.validateMainPhoto photos)
      = Some (Photos.setMain true first)).
Proof.
  intros photos. subst photos.
  destruct (PhotoFacts.validateMainPhoto_cases (first :: others))
    as [[Heq H1] | [[Hnil _] | (f & o & [= <- <-] & Hn & Heq)]].
  - split; [done | intros Hn; by destruct Hn].
  - discriminate Hnil.
  - split; [intros H1; by destruct Hn|].
    intros _. rewrite Heq. reflexivity.
Qed.

Lemma validateMainPhoto_first_witness :
  Photos.mainPhoto
    (Photos.validateMainPhoto
       [Fixture2.portrait; Fixture2.beach; Fixture2.party])
  = Some (Photos.setMain true Fixture2.portrait).
Proof.
  apply (validateMainPhoto_first Fixture2.portrait
           [Fixture2.beach; Fixture2.party]).
  simpl. discriminate.
Defined.

(** X18: the [mainPhoto] virtual is [null] exactly when there is no
    photo; otherwise it is one of the photos, the first main one when
    there is a main one and the photo at index 0 when there is none. *)
Theorem mainPhoto_spec (photos : list Photos.Photo) :
  (Photos.mainPhoto photos = None <-> photos = [])
  /\ (forall p, Photos.mainPhoto photos = Some p -> p ∈ photos)
  /\ (forall p, Photos.mainPhoto photos = Some p ->
        (exists q, q ∈ photos /\ Photos.isMain q = true) ->
        Photos.isMain p = true
        /\ exists before after,
             photos = before ++ p :: after
             /\ Forall (fun q => Photos.isMain q = false) before)
  /\ (List.filter Photos.isMain photos = [] ->
      Photos.mainPhoto photos = head photos).
Proof.
  unfold Photos.mainPhoto.
  destruct (List.find Photos.isMain photos) as [m|] eqn:Hfind.
  - assert (Hsplit : exists before after,
               photos = before ++ m :: after
               /\ Forall (fun q => Photos.isMain q = false) before
               /\ Photos.isMain m = true).
    { clear -Hfind. induction photos as [|x photos IH]; [discriminate|].
      simpl in Hfind. destruct (Photos.isMain x) eqn:Hx.
      - injection Hfind as <-. exists [], photos. by repeat split.
      - destruct (IH Hfind) as (before & after & -> & Hb & Hm).
        exists (x :: before), after. repeat split; [|exact Hm].
        by constructor. }
    destruct Hsplit as (before & after & Hphotos & Hb & Hm).
    split; [|split; [|split]].
    + split; [discriminate|]. intros ->. by destruct before.
    + intros p [= <-]. rewrite Hphotos. set_solver.
    + intros p [= <-] _. split; [exact Hm|]. by exists before, after.
    + intros Hnil. apply PhotoFacts.find_isMain_None in Hnil. congruence.
  - split; [|split; [|split]].
    + destruct photos; simpl; split; done.
    + intros p Hp. destruct photos as [|x photos]; [discriminate|].
      injection Hp as <-. apply list_elem_of_here.
    + intros p _ (q & Hq & Hmain). exfalso.
      apply PhotoFacts.find_isMain_None in Hfind.
      assert (Hin : q ∈ List.filter Photos.isMain photos)
        by (apply list_elem_of_In, filter_In; split;
            [by apply list_elem_of_In | exact Hmain]).
      rewrite Hfind in Hin. by apply elem_of_nil in Hin.
    + done.
Qed.

(** ** Ghost mode *)

(** X19: ghost mode is on only while the flag is set and the expiry lies
    strictly ahead: once off with the passing of time it stays off, at
    [expiresAt] itself it is off, and without an expiry it is never on. *)
Theorem isInGhostMode_expires (now later : Z) (g : GhostMode.GhostMode) :
  now <= later ->
  GhostMode.truthy (GhostMode.isInGhostMode later g) = true ->
  GhostMode.truthy (GhostMode.isInGhostMode now g) = true
  /\ GhostMode.isActive g = true
  /\ exists e, GhostMode.expiresAt g = Some e /\ later < e.
Proof.
  intros Hle. unfold GhostMode.isInGhostMode.
  destruct (GhostMode.isActive g); [|discriminate].
  destruct (GhostMode.expiresAt g) as [e|]; [|discriminate].
  simpl. intros Hlater%Z.ltb_lt.
  split; [apply Z.ltb_lt; lia|]. split; [reflexivity|].
  exists e. split; [reflexivity | exact Hlater].
Qed.

Lemma isInGhostMode_expires_witness :
  GhostMode.truthy
    (GhostMode.isInGhostMode 10
       (GhostMode.mkGhostMode true (Some 30) (Some 5))) = true
  /\ GhostMode.isActive (GhostMode.mkGhostMode true (Some 30) (Some 5)) = true
  /\ exists e,
       GhostMode.expiresAt (GhostMode.mkGhostMode true (Some 30) (Some 5))
       = Some e /\ 20 < e.
Proof.
  apply (isInGhostMode_expires 10 20
           (GhostMode.mkGhostMode true (Some 30) (Some 5))).
  - lia.
  - reflexivity.
Defined.

(** ** The projection of [findCompatibleUsers] and the public profile *)

Lemma select_sensitive (k : string) :
  k ∈ compatibleUsers_select -> k ∈ sensitive_fields.
Proof.
  unfold compatibleUsers_select, sensitive_fields. intros Hk.
  repeat (apply elem_of_cons in Hk as [->|Hk];
          [repeat first [apply list_elem_of_here | apply list_elem_of_further]|]).
  by apply elem_of_nil in Hk.
Qed.

(** X20: the projection of [findCompatibleUsers] removes four of the
    seven properties that [getPublicProfile] removes: [email],
    [passwordResetExpires] and [emailVerificationExpires] pass through
    it, and [getPublicProfile] gives the same object with or without the
    projection before it. *)
Theorem compatibleUsers_select_keeps {Value : Type}
    (toObject : User -> gmap string Value) (this : User) :
  (forall k,
     k ∈ ["email"; "passwordResetExpires"; "emailVerificationExpires"]%string ->
     select_exclude compatibleUsers_select (toObject this) !! k
     = toObject this !! k)
  /\ (forall k, k ∈ compatibleUsers_select -> k ∈ sensitive_fields)
  /\ getPublicProfile
       (fun doc => select_exclude compatibleUsers_select (toObject doc)) this
     = getPublicProfile toObject this.
Proof.
  split; [|split].
  - intros k Hk. unfold select_exclude. rewrite lookup_foldr_delete.
    rewrite decide_False; [reflexivity|].
    unfold compatibleUsers_select. intros Hin.
    repeat (apply elem_of_cons in Hk as [->|Hk];
            [repeat (apply elem_of_cons in Hin as [Hin|Hin];
                     [discriminate Hin|]);
             by apply elem_of_nil in Hin|]).
    by apply elem_of_nil in Hk.
  - apply select_sensitive.
  - change (foldr delete
              (select_exclude compatibleUsers_select (toObject this))
              (reverse sensitive_fields)
            = foldr delete (toObject this) (reverse sensitive_fields)).
    apply map_eq. intros k. unfold select_exclude.
    rewrite !lookup_foldr_delete.
    destruct (decide (k ∈ reverse sensitive_fields)) as [Hin|Hout];
      [reflexivity|].
    rewrite decide_False; [reflexivity|].
    intros Hk. apply Hout. apply elem_of_reverse.
    by apply select_sensitive.
Qed.

(** ** The error handler *)

Module ErrorFacts.
Import ErrorHandler.

Lemma string_or_default_nonempty (x : option string) (d : string) :
  d <> ""%string -> string_or_default x d <> ""%string.
Proof.
  intros Hd. unfold string_or_default, Js.truthy.
  destruct x as [s|]; simpl; [|exact Hd].
  destruct (String.eqb_spec s ""); simpl; done.
Qed.

Lemma number_or_default_cases (x : option Z) (d : Z) :
  number_or_default x d = d
  \/ x = Some (number_or_default x d) /\ number_or_default x d <> 0.
Proof.
  unfold number_or_default, Js.or_default.
  destruct x as [n|]; [|by left].
  destruct (Z.eqb_spec n 0); [by left | by right].
Qed.

Lemma property_optional_stack (key : string) (value : option string) (v : Json) :
  property "stack" (optionalProperty key value) = Some v ->
  key = "stack"%string /\ exists s, value = Some s /\ v = JString s.
Proof.
  destruct value as [s|]; simpl; [|discriminate].
  destruct (String.eqb_spec key "stack"); [|discriminate].
  intros [= <-]. split; [done|]. by exists s.
Qed.

Lemma messagesOf_None (errs : list (string * option string)) :
  messagesOf errs = None -> exists path, (path, None) ∈ errs.
Proof.
  unfold messagesOf. induction errs as [|[path [m|]] errs IH]; simpl.
  - discriminate.
  - destruct (mapM snd errs); [discriminate|].
    intros _. destruct IH as [p Hp]; [reflexivity|].
    exists p. by apply list_elem_of_further.
  - intros _. exists path. apply list_elem_of_here.
Qed.

Lemma messagesOf_null (errs : list (string * option string)) (path : string) :
  (path, None) ∈ errs -> messagesOf errs = None.
Proof.
  unfold messagesOf. induction errs as [|[p [m|]] errs IH]; simpl.
  - intros H. by apply elem_of_nil in H.
  - intros [[=]|H]%elem_of_cons. by rewrite IH.
  - reflexivity.
Qed.

Lemma messagesOf_withMessage (errs : list (string * string)) :
  messagesOf (map withMessage errs) = Some (map snd errs).
Proof.
  unfold messagesOf. induction errs as [|[p m] errs IH]; simpl; [done|].
  by rewrite IH.
Qed.

End ErrorFacts.

(** X21: the handler itself fails, with a [TypeError], in three cases
    only: a [ValidationError] without [errors], a [ValidationError] whose
    [errors] holds an entry that is [null] or [undefined], and a
    duplicate-key error (code 11000, not a [ValidationError]) without
    [keyValue].  Every other error gets a response. *)
Theorem errorHandler_throws (NODE_ENV : option string)
    (error : ErrorHandler.Error) :
  (exists r, ErrorHandler.errorHandler NODE_ENV error = Js.Returns r)
  \/ ErrorHandler.errorHandler NODE_ENV error = Js.Throws "TypeError"
     /\ (ErrorHandler.name error = "ValidationError"%string
         /\ (ErrorHandler.errors error = None
             \/ exists errs path,
                  ErrorHandler.errors error = Some errs
                  /\ (path, None) ∈ errs)
         \/ ErrorHandler.name error <> "ValidationError"%string
            /\ ErrorHandler.code error = Some 11000
            /\ ErrorHandler.keyValue error = None).
Proof.
  unfold ErrorHandler.errorHandler.
  destruct (String.eqb_spec (ErrorHandler.name error) "ValidationError")
    as [Hv|Hv].
  - destruct (ErrorHandler.errors error) as [errs|]; [|right; auto].
    destruct (ErrorHandler.messagesOf errs) as [details|] eqn:Hm;
      [left; eauto|].
    right. split; [reflexivity|]. left. split; [exact Hv|]. right.
    destruct (ErrorFacts.messagesOf_None errs Hm) as [path Hin].
    by exists errs, path.
  - destruct (bool_decide_reflect (ErrorHandler.code error = Some 11000))
      as [Hc|Hc].
    + destruct (ErrorHandler.keyValue error); [left; eauto | right; auto].
    + repeat match goal with
             | |- context [if ?b then _ else _] => destruct b
             end; left; eauto.
Qed.

(** The three cases do throw. *)
Lemma errorHandler_TypeError_cases (NODE_ENV : option string)
    (error : ErrorHandler.Error) :
  (ErrorHandler.name error = "ValidationError"%string
   /\ (ErrorHandler.errors error = None
       \/ exists errs path,
            ErrorHandler.errors error = Some errs /\ (path, None) ∈ errs)
   \/ ErrorHandler.name error <> "ValidationError"%string
      /\ ErrorHandler.code error = Some 11000
      /\ ErrorHandler.keyValue error = None) ->
  ErrorHandler.errorHandler NODE_ENV error = Js.Throws "TypeError".
Proof.
  unfold ErrorHandler.errorHandler.
  intros [[Hv [He|(errs & path & He & Hin)]] | (Hv & Hc & Hk)].
  - by rewrite Hv, He.
  - rewrite Hv, He. simpl.
    by rewrite (ErrorFacts.messagesOf_null errs path Hin).
  - destruct (String.eqb_spec (ErrorHandler.name error) "ValidationError");
      [done|].
    rewrite Hc, Hk. by rewrite bool_decide_eq_true_2.
Qed.

(** X22: the status of a response is 400, 401 or 500, unless the error
    carries a [status] other than 0, which is then used as it is. *)
Theorem errorHandler_status (NODE_ENV : option string)
    (error : ErrorHandler.Error) (r : ErrorHandler.Response) :
  ErrorHandler.errorHandler NODE_ENV error = Js.Returns r ->
  ErrorHandler.statusCode r = 400
  \/ ErrorHandler.statusCode r = 401
  \/ ErrorHandler.statusCode r = 500
  \/ ErrorHandler.status error = Some (ErrorHandler.statusCode r)
     /\ ErrorHandler.statusCode r <> 0.
Proof.
  unfold ErrorHandler.errorHandler.
  destruct (String.eqb (ErrorHandler.name error) "ValidationError").
  { destruct (ErrorHandler.errors error) as [errs|]; [|discriminate].
    destruct (ErrorHandler.messagesOf errs); [|discriminate].
    intros [= <-]. by left. }
  destruct (bool_decide (ErrorHandler.code error = Some 11000)).
  { destruct (ErrorHandler.keyValue error); [|discriminate].
    intros [= <-]. by left. }
  destruct (String.eqb (ErrorHandler.name error) "JsonWebTokenError").
  { intros [= <-]. right. by left. }
  destruct (String.eqb (ErrorHandler.name error) "TokenExpiredError").
  { intros [= <-]. right. by left. }
  intros [= <-]. simpl. right. right.
  destruct (ErrorFacts.number_or_default_cases
              (ErrorHandler.status error) 500) as [->|H]; [by left | by right].
Qed.

Lemma errorHandler_status_witness :
  ErrorHandler.statusCode (ErrorHandler.mkResponse 404
                             [("error"%string, ErrorHandler.JString "absent")])
  = 400
  \/ ErrorHandler.statusCode (ErrorHandler.mkResponse 404
                                [("error"%string, ErrorHandler.JString "absent")])
     = 401
  \/ ErrorHandler.statusCode (ErrorHandler.mkResponse 404
                                [("error"%string, ErrorHandler.JString "absent")])
     = 500
  \/ ErrorHandler.status
       (ErrorHandler.mkError "NotFound" None None None (Some 404)
          (Some "absent"%string) None)
     = Some (ErrorHandler.statusCode
               (ErrorHandler.mkResponse 404
                  [("error"%string, ErrorHandler.JString "absent")]))
     /\ ErrorHandler.statusCode
          (ErrorHandler.mkResponse 404
             [("error"%string, ErrorHandler.JString "absent")]) <> 0.
Proof.
  apply (errorHandler_status (Some "production"%string)
           (ErrorHandler.mkError "NotFound" None None None (Some 404)
              (Some "absent"%string) None)).
  reflexivity.
Defined.

(** X23: every response carries an [error] property that is a string and
    is not empty. *)
Theorem errorHandler_error_message (NODE_ENV : option string)
    (error : ErrorHandler.Error) (r : ErrorHandler.Response) :
  ErrorHandler.errorHandler NODE_ENV error = Js.Returns r ->
  exists s,
    ErrorHandler.bodyProperty "error" r = Some (ErrorHandler.JString s)
    /\ s <> ""%string.
Proof.
  unfold ErrorHandler.errorHandler.
  destruct (String.eqb (ErrorHandler.name error) "ValidationError").
  { destruct (ErrorHandler.errors error) as [errs|]; [|discriminate].
    destruct (ErrorHandler.messagesOf errs); [|discriminate].
    intros [= <-]. eexists. split; [reflexivity | discriminate]. }
  destruct (bool_decide (ErrorHandler.code error = Some 11000)).
  { destruct (ErrorHandler.keyValue error) as [keys|]; [|discriminate].
    intros [= <-]. eexists. split; [reflexivity|].
    unfold ErrorHandler.templateOf.
    destruct (head keys) as [[|c f]|]; simpl; discriminate. }
  destruct (String.eqb (ErrorHandler.name error) "JsonWebTokenError").
  { intros [= <-]. eexists. split; [reflexivity | discriminate]. }
  destruct (String.eqb (ErrorHandler.name error) "TokenExpiredError").
  { intros [= <-]. eexists. split; [reflexivity | discriminate]. }
  intros [= <-]. eexists. split; [reflexivity|].
  apply ErrorFacts.string_or_default_nonempty. discriminate.
Qed.

Lemma errorHandler_error_message_witness :
  exists s,
    ErrorHandler.bodyProperty "error"
      (ErrorHandler.mkResponse 500
         [("error"%string, ErrorHandler.JString "Erreur serveur interne")])
    = Some (ErrorHandler.JString s)
    /\ s <> ""%string.
Proof.
  apply (errorHandler_error_message None
           (ErrorHandler.mkError "Error" None None None None (Some ""%string)
              (Some "at f"%string))).
  reflexivity.
Defined.

(** X24: a response holds a [stack] only when [NODE_ENV] is
    ['development'], and then only for an error that is none of the four
    kinds the handler knows. *)
Theorem errorHandler_stack (NODE_ENV : option string)
    (error : ErrorHandler.Error) (r : ErrorHandler.Response)
    (v : ErrorHandler.Json) :
  ErrorHandler.errorHandler NODE_ENV error = Js.Returns r ->
  ErrorHandler.bodyProperty "stack" r = Some v ->
  NODE_ENV = Some "development"%string
  /\ (exists s, ErrorHandler.stack error = Some s
                /\ v = ErrorHandler.JString s)
  /\ ErrorHandler.name error <> "ValidationError"%string
  /\ ErrorHandler.code error <> Some 11000
  /\ ErrorHandler.name error <> "JsonWebTokenError"%string
  /\ ErrorHandler.name error <> "TokenExpiredError"%string.
Proof.
  unfold ErrorHandler.errorHandler, ErrorHandler.bodyProperty.
  destruct (String.eqb_spec (ErrorHandler.name error) "ValidationError")
    as [|Hv].
  { destruct (ErrorHandler.errors error) as [errs|]; [|discriminate].
    destruct (ErrorHandler.messagesOf errs); [|discriminate].
    intros [= <-]. discriminate. }
  destruct (bool_decide_reflect (ErrorHandler.code error = Some 11000))
    as [|Hc].
  { destruct (ErrorHandler.keyValue error) as [keys|]; [|discriminate].
    intros [= <-]. simpl.
    destruct (head keys); simpl; discriminate. }
  destruct (String.eqb_spec (ErrorHandler.name error) "JsonWebTokenError")
    as [|Hj].
  { intros [= <-]. discriminate. }
  destruct (String.eqb_spec (ErrorHandler.name error) "TokenExpiredError")
    as [|Ht].
  { intros [= <-]. discriminate. }
  intros [= <-]. simpl.
  destruct (bool_decide_reflect (NODE_ENV = Some "development"%string))
    as [Henv|Henv]; [|discriminate].
  intros Hs. apply ErrorFacts.property_optional_stack in Hs as [_ Hs].
  repeat split; assumption.
Qed.

Lemma errorHandler_stack_witness :
  Some "development"%string = Some "development"%string
  /\ (exists s, Some "at f"%string = Some s
                /\ ErrorHandler.JString "at f" = ErrorHandler.JString s)
  /\ "Error"%string <> "ValidationError"%string
  /\ (None : option Z) <> Some 11000
  /\ "Error"%string <> "JsonWebTokenError"%string
  /\ "Error"%string <> "TokenExpiredError"%string.
Proof.
  apply (errorHandler_stack (Some "development"%string)
           (ErrorHandler.mkError "Error" None None None None
              (Some "boom"%string) (Some "at f"%string))
           (ErrorHandler.mkResponse 500
              [("error"%string, ErrorHandler.JString "boom");
               ("stack"%string, ErrorHandler.JString "at f")])
           (ErrorHandler.JString "at f")).
  - reflexivity.
  - reflexivity.
Defined.

(** X25: a [ValidationError] is answered with 400 and the messages of its
    [errors], one for each and in their order, whatever else the error
    carries: a code 11000 or a [status] of its own change nothing. *)
Theorem errorHandler_validation (NODE_ENV : option string)
    (error : ErrorHandler.Error) (errs : list (string * string)) :
  ErrorHandler.name error = "ValidationError"%string ->
  ErrorHandler.errors error = Some (map ErrorHandler.withMessage errs) ->
  exists r,
    ErrorHandler.errorHandler NODE_ENV error = Js.Returns r
    /\ ErrorHandler.statusCode r = 400
    /\ ErrorHandler.bodyProperty "details" r
       = Some (ErrorHandler.JArray (map snd errs))
    /\ ErrorHandler.bodyProperty "stack" r = None.
Proof.
  intros Hn He. unfold ErrorHandler.errorHandler. rewrite Hn, He. simpl.
  rewrite ErrorFacts.messagesOf_withMessage.
  eexists. split; [reflexivity|]. by repeat split.
Qed.

Lemma errorHandler_validation_witness :
  exists r,
    ErrorHandler.errorHandler (Some "development"%string)
      (ErrorHandler.mkError "ValidationError" (Some 11000)
         (Some (map ErrorHandler.withMessage
                  [("email", "Email invalide");
                   ("password", "trop court")]%string))
         None (Some 422) None (Some "at f"%string))
    = Js.Returns r
    /\ ErrorHandler.statusCode r = 400
    /\ ErrorHandler.bodyProperty "details" r
       = Some (ErrorHandler.JArray
                 (map snd [("email", "Email invalide");
                           ("password", "trop court")]%string))
    /\ ErrorHandler.bodyProperty "stack" r = None.
Proof.
  apply errorHandler_validation; reflexivity.
Defined.

(** ** Authentication *)

Module AuthFacts.
Import Auth.

Lemma startsWith_Some (pattern s rest : string) :
  startsWith pattern s = Some rest <-> s = (pattern ++ rest)%string.
Proof.
  revert s. induction pattern as [|a pattern IH]; intros s; simpl.
  - split; [by intros [= ->] | by intros ->].
  - destruct s as [|b s]; [split; discriminate|].
    destruct (Ascii.eqb_spec a b) as [->|Hne].
    + rewrite IH. split; [by intros -> | by intros [= ->]].
    + split; [discriminate | intros [= Hab _]; by destruct Hne].
Qed.

Lemma replace_unfold (pattern replacement s : string) :
  replace pattern replacement s
  = match startsWith pattern s with
    | Some rest => (replacement ++ rest)%string
    | None =>
        match s with
        | EmptyString => EmptyString
        | String c s' => String c (replace pattern replacement s')
        end
    end.
Proof. destruct s; reflexivity. Qed.

(** A leading occurrence of the pattern is the one replaced. *)
Lemma replace_prefix (pattern replacement rest : string) :
  replace pattern replacement (pattern ++ rest)
  = (replacement ++ rest)%string.
Proof.
  assert (H : startsWith pattern (pattern ++ rest) = Some rest)
    by by apply startsWith_Some.
  by rewrite replace_unfold, H.
Qed.

(** A string in which the pattern does not occur is left as it is. *)
Lemma replace_absent (pattern replacement s : string) :
  (forall before after, s <> (before ++ pattern ++ after)%string) ->
  replace pattern replacement s = s.
Proof.
  induction s as [|c s IH]; intros Habsent; rewrite replace_unfold.
  - destruct (startsWith pattern "") as [rest|] eqn:Hs; [|done].
    apply startsWith_Some in Hs. by destruct (Habsent ""%string rest).
  - destruct (startsWith pattern (String c s)) as [rest|] eqn:Hs.
    + apply startsWith_Some in Hs. by destruct (Habsent ""%string rest).
    + f_equal. apply IH. intros before after ->.
      by destruct (Habsent (String c before) after).
Qed.

Lemma findById_Some (store : list User) (id : option N) (user : User) :
  findById store id = Some user ->
  id = Some (_id user) /\ user ∈ store.
Proof.
  destruct id as [i|]; simpl; [|discriminate].
  intros Hf. apply find_some in Hf as [Hin Heq].
  apply N.eqb_eq in Heq. subst i. split; [done | by apply list_elem_of_In].
Qed.

Section MiddlewareFacts.

Variable jwt_verify : string -> string -> Js.Completion (option N).

Lemma authMiddleware_header (JWT_SECRET : option string)
    (store : list User) (header : string) :
  authMiddleware jwt_verify JWT_SECRET store (Some header)
  = let token := replace "Bearer " "" header in
    if String.eqb token "" then Respond 401 "Accès refusé. Token manquant."
    else
      match jwt_verify token (secretOf JWT_SECRET) with
      | Js.Throws _ => Respond 401 "Token invalide."
      | Js.Returns userId =>
          match findById store userId with
          | None => Respond 401 "Token invalide. Utilisateur non trouvé."
          | Some user => Next user
          end
      end.
Proof. reflexivity. Qed.

End MiddlewareFacts.

End AuthFacts.

(** X26: the middleware lets a request through exactly when what is left
    of the [Authorization] header without its first ['Bearer '] is not
    empty, verifies under the secret, and names the [_id] of a stored
    user, which becomes [req.user]; the flags [isActive] and [isBanned]
    of that user play no part. *)
Theorem authMiddleware_passes
    (jwt_verify : string -> string -> Js.Completion (option N))
    (JWT_SECRET : option string) (store : list User)
    (authorization : option string) (user : User) :
  Auth.authMiddleware jwt_verify JWT_SECRET store authorization
  = Auth.Next user <->
  exists header,
    authorization = Some header
    /\ Auth.replace "Bearer " "" header <> ""%string
    /\ jwt_verify (Auth.replace "Bearer " "" header)
         (Auth.secretOf JWT_SECRET)
       = Js.Returns (Some (_id user))
    /\ Auth.findById store (Some (_id user)) = Some user.
Proof.
  unfold Auth.authMiddleware. split.
  - destruct authorization as [header|]; simpl; [|discriminate].
    destruct (String.eqb_spec (Auth.replace "Bearer " "" header) "") as [|Hne];
      [discriminate|].
    destruct (jwt_verify _ _) as [userId|] eqn:Hv; [|discriminate].
    destruct (Auth.findById store userId) as [u|] eqn:Hf; [|discriminate].
    intros [= ->]. destruct (AuthFacts.findById_Some _ _ _ Hf) as [-> _].
    exists header. by repeat split.
  - intros (header & -> & Hne & Hv & Hf). simpl.
    destruct (String.eqb_spec (Auth.replace "Bearer " "" header) "") as [|_];
      [done|].
    by rewrite Hv, Hf.
Qed.

(** X27: whatever the header, the verifier and the collection, the
    middleware either passes a user of the collection on or answers 401:
    it sends no other status. *)
Theorem authMiddleware_outcome
    (jwt_verify : string -> string -> Js.Completion (option N))
    (JWT_SECRET : option string) (store : list User)
    (authorization : option string) :
  (exists user,
     Auth.authMiddleware jwt_verify JWT_SECRET store authorization
     = Auth.Next user /\ user ∈ store)
  \/ exists error,
       Auth.authMiddleware jwt_verify JWT_SECRET store authorization
       = Auth.Respond 401 error.
Proof.
  unfold Auth.authMiddleware.
  destruct authorization as [header|]; simpl; [|right; eauto].
  destruct (String.eqb _ _); [right; eauto|].
  destruct (jwt_verify _ _) as [userId|]; [|right; eauto].
  destruct (Auth.findById store userId) as [u|] eqn:Hf; [|right; eauto].
  left. exists u. split; [reflexivity|].
  by destruct (AuthFacts.findById_Some _ _ _ Hf).
Qed.

(** X28: the scheme is not required: a header that is the bare token
    is treated as the same token after ['Bearer '], for a token in which
    ['Bearer '] does not occur; and the header ['Bearer '] alone counts as
    a missing token. *)
Theorem authMiddleware_bearer
    (jwt_verify : string -> string -> Js.Completion (option N))
    (JWT_SECRET : option string) (store : list User) (token : string) :
  (forall before after,
     token <> (before ++ "Bearer " ++ after)%string) ->
  Auth.authMiddleware jwt_verify JWT_SECRET store
    (Some ("Bearer " ++ token)%string)
  = Auth.authMiddleware jwt_verify JWT_SECRET store (Some token)
  /\ Auth.authMiddleware jwt_verify JWT_SECRET store (Some "Bearer "%string)
     = Auth.authMiddleware jwt_verify JWT_SECRET store None.
Proof.
  intros Habsent. split; [|reflexivity].
  rewrite !AuthFacts.authMiddleware_header.
  rewrite (AuthFacts.replace_prefix "Bearer " "" token).
  rewrite (AuthFacts.replace_absent "Bearer " "" token Habsent).
  reflexivity.
Qed.

Lemma authMiddleware_bearer_witness :
  Auth.authMiddleware Fixture2.verify None Fixture.store
    (Some ("Bearer " ++ "t3")%string)
  = Auth.authMiddleware Fixture2.verify None Fixture.store (Some "t3"%string)
  /\ Auth.authMiddleware Fixture2.verify None Fixture.store
       (Some "Bearer "%string)
     = Auth.authMiddleware Fixture2.verify None Fixture.store None.
Proof.
  apply (authMiddleware_bearer Fixture2.verify None Fixture.store "t3").
  intros before after H.
  destruct before as [|a [|b [|c before]]]; simpl in H; discriminate H.
Defined.


